(** * LearnOpenGL: the triangle program of [main.cpp]

    A shallow embedding of [src/LearnOpenGL/main.cpp].  The program is a
    linear sequence of GLFW / OpenGL / iostream calls, so it is modelled as
    a computation in a state-and-exception monad whose state records the
    log of API calls made so far.  Everything outside the program (window
    system, OpenGL driver, file system, user input) is an [environment] of
    oracles; an oracle sees the whole call log, so its answers may depend on
    everything that happened before. *)

From Stdlib Require Import List String Ascii ZArith NArith QArith Bool Lia Arith.
Import ListNotations.

Set Implicit Arguments.

Close Scope Q_scope.
Open Scope Z_scope.

(** ** Data as the C++ code has it *)

Definition GLuint := N.          (* unsigned int object names; 0 is "no object" *)
Definition GLenum := N.
Definition GLint := Z.
Definition GLsizei := Z.
Definition GLfloat := Q.         (* a float literal, as the number it denotes *)
Definition GLFWwindow := N.      (* GLFWwindow*, 0 is NULL *)

Definition NULL : GLFWwindow := 0%N.

(** Constants of this program (main.cpp, lines 12-14). *)
Definition SCREEN_WIDTH : Z := 800.
Definition SCREEN_HEIGHT : Z := 600.
Definition INFO_LOG_SIZE : Z := 512.

(** Constants of the GLFW and glad headers that the program names. *)
Definition GLFW_CONTEXT_VERSION_MAJOR : Z := 0x00022002.
Definition GLFW_CONTEXT_VERSION_MINOR : Z := 0x00022003.
Definition GLFW_OPENGL_PROFILE : Z := 0x00022008.
Definition GLFW_OPENGL_CORE_PROFILE : Z := 0x00032001.
Definition GLFW_KEY_ESCAPE : Z := 256.
Definition GLFW_PRESS : Z := 1.
Definition GLFW_RELEASE : Z := 0.

Definition GL_VERTEX_SHADER : GLenum := 0x8B31%N.
Definition GL_FRAGMENT_SHADER : GLenum := 0x8B30%N.
Definition GL_GEOMETRY_SHADER : GLenum := 0x8DD9%N.
Definition GL_COMPILE_STATUS : GLenum := 0x8B81%N.
Definition GL_LINK_STATUS : GLenum := 0x8B82%N.
Definition GL_ARRAY_BUFFER : GLenum := 0x8892%N.
Definition GL_STATIC_DRAW : GLenum := 0x88E4%N.
Definition GL_FLOAT : GLenum := 0x1406%N.
Definition GL_TRIANGLES : GLenum := 0x0004%N.
Definition GL_COLOR_BUFFER_BIT : N := 0x4000%N.
Definition GL_FALSE : bool := false.

Definition sizeof_float : Z := 4.

(** The newline character of ["\n"] and [std::endl]. *)
Definition nl : string := String (ascii_of_nat 10) EmptyString.
Definition endl : string := nl.

(** The two output streams of <iostream>. *)
Inductive ostream := cout | cerr.

(** What [std::ifstream::failure::what()] carries. *)
Record ios_failure := { what : string }.

(** ** The call log

    One constructor per library call the program makes, with the arguments
    passed and, for calls that answer, the answer received. *)
Inductive event :=
| GlfwInit
| GlfwWindowHint (hint value : Z)
| GlfwCreateWindow (width height : Z) (title : string) (ret : GLFWwindow)
| GlfwTerminate
| GlfwMakeContextCurrent (window : GLFWwindow)
| GladLoadGLLoader (ret : Z)
| GlViewport (x y width height : Z)
| GlfwSetFramebufferSizeCallback (window : GLFWwindow)
| IfstreamOpen (path : string) (failed : option ios_failure)
| IfstreamRdbuf (path : string) (delivered : string) (read_error : bool)
| IfstreamClose (path : string) (failed : option ios_failure)
| StreamWrite (os : ostream) (pieces : list string)
| GlCreateShader (type : GLenum) (ret : GLuint)
| GlShaderSource (shader : GLuint) (count : GLsizei) (source : string)
| GlCompileShader (shader : GLuint)
| GlGetShaderiv (shader : GLuint) (pname : GLenum) (ret : GLint)
| GlGetShaderInfoLog (shader : GLuint) (maxLength : GLsizei)
                     (capacity : Z) (written : string)
| GlDeleteShader (shader : GLuint)
| GlCreateProgram (ret : GLuint)
| GlAttachShader (program shader : GLuint)
| GlLinkProgram (program : GLuint)
| GlGetProgramiv (program : GLuint) (pname : GLenum) (ret : GLint)
| GlGetProgramInfoLog (program : GLuint) (maxLength : GLsizei)
                      (capacity : Z) (written : string)
| GlDeleteProgram (program : GLuint)
| GlGenVertexArrays (n : GLsizei) (ret : GLuint)
| GlBindVertexArray (array : GLuint)
| GlGenBuffers (n : GLsizei) (ret : GLuint)
| GlBindBuffer (target : GLenum) (buffer : GLuint)
| GlBufferData (target : GLenum) (size : Z) (data : list GLfloat) (usage : GLenum)
| GlVertexAttribPointer (index : GLuint) (size : GLint) (type : GLenum)
                        (normalized : bool) (stride : GLsizei) (pointer : Z)
| GlEnableVertexAttribArray (index : GLuint)
| GlDeleteVertexArrays (n : GLsizei) (array : GLuint)
| GlDeleteBuffers (n : GLsizei) (buffer : GLuint)
| GlfwWindowShouldClose (window : GLFWwindow) (ret : bool)
| GlClearColor (red green blue alpha : GLfloat)
| GlClear (mask : N)
| GlUseProgram (program : GLuint)
| GlDrawArrays (mode : GLenum) (first : GLint) (count : GLsizei)
| GlfwGetKey (window : GLFWwindow) (key : Z) (ret : Z)
| GlfwSetWindowShouldClose (window : GLFWwindow) (value : bool)
| GlfwPollEvents
| GlfwSwapBuffers (window : GLFWwindow).

(** The log is kept in the order of the calls, oldest first. *)
Definition history := list event.

(** What one [glfwPollEvents] delivers: framebuffer resizes (each one runs
    the registered resize callback) and whether the user asked to close the
    window. *)
Record poll_result := {
  framebuffer_resizes : list (Z * Z);
  close_requested : bool
}.

(** What [shaderStream << shaderFile.rdbuf()] copies out of an open file:
    the characters delivered until the end of the file or until a read
    error stopped the copy. *)
Record rdbuf_result := {
  delivered : string;
  read_error : bool
}.

(** ** The environment *)
Record environment := {
  env_glfwCreateWindow : history -> GLFWwindow;
  env_gladLoadGLLoader : history -> Z;
  env_open : history -> string -> option ios_failure;
  env_rdbuf : history -> string -> rdbuf_result;
  env_close : history -> string -> option ios_failure;
  env_glCreateShader : history -> GLenum -> GLuint;
  env_glGetShaderiv : history -> GLuint -> GLenum -> GLint;
  env_shaderInfoLog : history -> GLuint -> string;
  env_glCreateProgram : history -> GLuint;
  env_glGetProgramiv : history -> GLuint -> GLenum -> GLint;
  env_programInfoLog : history -> GLuint -> string;
  env_glGenVertexArrays : history -> GLuint;
  env_glGenBuffers : history -> GLuint;
  env_glfwGetKey : history -> GLFWwindow -> Z -> Z;
  env_glfwPollEvents : history -> poll_result
}.

(** ** Program state and the monad *)
Record world := {
  trace : history;
  should_close : bool;          (* the window's close flag *)
  resize_callback_set : bool    (* glfwSetFramebufferSizeCallback was called *)
}.

Definition initial_world : world :=
  {| trace := []; should_close := false; resize_callback_set := false |}.

Inductive result (A : Type) :=
| Ok (a : A)
| Throw (e : ios_failure).
Arguments Throw {A} e.

Definition M (A : Type) := world -> result A * world.

Definition ret {A} (a : A) : M A := fun w => (Ok a, w).

Definition bind {A B} (m : M A) (k : A -> M B) : M B :=
  fun w => match m w with
           | (Ok a, w') => k a w'
           | (Throw e, w') => (Throw e, w')
           end.

Definition throw {A} (e : ios_failure) : M A := fun w => (Throw e, w).

(** [try { body } catch (std::ifstream::failure& e) { handler e }] *)
Definition try_catch {A} (body : M A) (handler : ios_failure -> M A) : M A :=
  fun w => match body w with
           | (Ok a, w') => (Ok a, w')
           | (Throw e, w') => handler e w'
           end.

Declare Scope prog_scope.
Delimit Scope prog_scope with prog.
Notation "x <- c ;; k" := (bind c (fun x => k))
  (at level 61, c at next level, right associativity) : prog_scope.
Notation "c ;; k" := (bind c (fun _ => k))
  (at level 61, right associativity) : prog_scope.

Definition log (e : event) (w : world) : world :=
  {| trace := trace w ++ [e];
     should_close := should_close w;
     resize_callback_set := resize_callback_set w |}.

(** A call that answers nothing. *)
Definition call (e : event) : M unit := fun w => (Ok tt, log e w).

(** A call whose answer the environment picks from the log so far. *)
Definition ask {A} (answer : history -> A) (e : A -> event) : M A :=
  fun w => let a := answer (trace w) in (Ok a, log (e a) w).

(** What [glGetShaderInfoLog] / [glGetProgramInfoLog] leave in the caller's
    buffer as a C string: at most [maxLength - 1] characters of the driver's
    log, followed by the terminating NUL. *)
Definition info_log_written (maxLength : GLsizei) (full : string) : string :=
  substring 0 (Z.to_nat (maxLength - 1)) full.

(** ** The library calls *)
Section Program.

Variable env : environment.

Open Scope prog_scope.

Definition glfwInit : M unit := call GlfwInit.
Definition glfwWindowHint (hint value : Z) : M unit := call (GlfwWindowHint hint value).
Definition glfwCreateWindow (width height : Z) (title : string) : M GLFWwindow :=
  ask (env_glfwCreateWindow env) (GlfwCreateWindow width height title).
Definition glfwTerminate : M unit := call GlfwTerminate.
Definition glfwMakeContextCurrent (window : GLFWwindow) : M unit :=
  call (GlfwMakeContextCurrent window).
Definition gladLoadGLLoader : M Z := ask (env_gladLoadGLLoader env) GladLoadGLLoader.
Definition glViewport (x y width height : Z) : M unit := call (GlViewport x y width height).
Definition glfwSetFramebufferSizeCallback (window : GLFWwindow) : M unit :=
  fun w => (Ok tt,
            {| trace := trace w ++ [GlfwSetFramebufferSizeCallback window];
               should_close := should_close w;
               resize_callback_set := true |}).

Definition stream_write (os : ostream) (pieces : list string) : M unit :=
  call (StreamWrite os pieces).

(** [shaderFile.open], [shaderStream << shaderFile.rdbuf()] and
    [shaderFile.close].  With the exception mask of line 188 set on
    [shaderFile], a failed open or close sets its failbit and throws
    [std::ifstream::failure].  The copy of line 192 is an insertion into
    [shaderStream]: it reads from the file's stream buffer directly, and
    when that read fails or delivers nothing it is [shaderStream] whose
    failbit is set ([ostream.inserters] in the C++ standard).  The exception
    mask of [shaderStream] is empty, so the copy never throws and leaves in
    [shaderStream] the characters delivered so far. *)
Definition ifstream_open (path : string) : M unit :=
  failed <- ask (fun h => env_open env h path) (IfstreamOpen path) ;;
  match failed with
  | Some e => throw e
  | None => ret tt
  end.
Definition ifstream_rdbuf (path : string) : M string :=
  r <- ask (fun h => env_rdbuf env h path)
           (fun r => IfstreamRdbuf path (delivered r) (read_error r)) ;;
  ret (delivered r).
Definition ifstream_close (path : string) : M unit :=
  failed <- ask (fun h => env_close env h path) (IfstreamClose path) ;;
  match failed with
  | Some e => throw e
  | None => ret tt
  end.

Definition glCreateShader (type : GLenum) : M GLuint :=
  ask (fun h => env_glCreateShader env h type) (GlCreateShader type).
Definition glShaderSource (shader : GLuint) (count : GLsizei) (source : string) : M unit :=
  call (GlShaderSource shader count source).
Definition glCompileShader (shader : GLuint) : M unit := call (GlCompileShader shader).
Definition glGetShaderiv (shader : GLuint) (pname : GLenum) : M GLint :=
  ask (fun h => env_glGetShaderiv env h shader pname) (GlGetShaderiv shader pname).
Definition glGetShaderInfoLog (shader : GLuint) (maxLength : GLsizei) (capacity : Z)
  : M string :=
  ask (fun h => info_log_written maxLength (env_shaderInfoLog env h shader))
      (GlGetShaderInfoLog shader maxLength capacity).
Definition glDeleteShader (shader : GLuint) : M unit := call (GlDeleteShader shader).

Definition glCreateProgram : M GLuint := ask (env_glCreateProgram env) GlCreateProgram.
Definition glAttachShader (program shader : GLuint) : M unit :=
  call (GlAttachShader program shader).
Definition glLinkProgram (program : GLuint) : M unit := call (GlLinkProgram program).
Definition glGetProgramiv (program : GLuint) (pname : GLenum) : M GLint :=
  ask (fun h => env_glGetProgramiv env h program pname) (GlGetProgramiv program pname).
Definition glGetProgramInfoLog (program : GLuint) (maxLength : GLsizei) (capacity : Z)
  : M string :=
  ask (fun h => info_log_written maxLength (env_programInfoLog env h program))
      (GlGetProgramInfoLog program maxLength capacity).
Definition glDeleteProgram (program : GLuint) : M unit := call (GlDeleteProgram program).

(** [glGenVertexArrays(n, &VAO)] and [glGenBuffers(n, &VBO)]; the program
    asks for one name, which is the answer. *)
Definition glGenVertexArrays (n : GLsizei) : M GLuint :=
  ask (env_glGenVertexArrays env) (GlGenVertexArrays n).
Definition glBindVertexArray (array : GLuint) : M unit := call (GlBindVertexArray array).
Definition glGenBuffers (n : GLsizei) : M GLuint :=
  ask (env_glGenBuffers env) (GlGenBuffers n).
Definition glBindBuffer (target : GLenum) (buffer : GLuint) : M unit :=
  call (GlBindBuffer target buffer).
Definition glBufferData (target : GLenum) (size : Z) (data : list GLfloat) (usage : GLenum)
  : M unit := call (GlBufferData target size data usage).
Definition glVertexAttribPointer (index : GLuint) (size : GLint) (type : GLenum)
  (normalized : bool) (stride : GLsizei) (pointer : Z) : M unit :=
  call (GlVertexAttribPointer index size type normalized stride pointer).
Definition glEnableVertexAttribArray (index : GLuint) : M unit :=
  call (GlEnableVertexAttribArray index).
Definition glDeleteVertexArrays (n : GLsizei) (array : GLuint) : M unit :=
  call (GlDeleteVertexArrays n array).
Definition glDeleteBuffers (n : GLsizei) (buffer : GLuint) : M unit :=
  call (GlDeleteBuffers n buffer).

Definition glfwWindowShouldClose (window : GLFWwindow) : M bool :=
  fun w => (Ok (should_close w), log (GlfwWindowShouldClose window (should_close w)) w).
Definition glfwSetWindowShouldClose (window : GLFWwindow) (value : bool) : M unit :=
  fun w => (Ok tt,
            {| trace := trace w ++ [GlfwSetWindowShouldClose window value];
               should_close := value;
               resize_callback_set := resize_callback_set w |}).
Definition glClearColor (red green blue alpha : GLfloat) : M unit :=
  call (GlClearColor red green blue alpha).
Definition glClear (mask : N) : M unit := call (GlClear mask).
Definition glUseProgram (program : GLuint) : M unit := call (GlUseProgram program).
Definition glDrawArrays (mode : GLenum) (first : GLint) (count : GLsizei) : M unit :=
  call (GlDrawArrays mode first count).
Definition glfwGetKey (window : GLFWwindow) (key : Z) : M Z :=
  ask (fun h => env_glfwGetKey env h window key) (GlfwGetKey window key).
Definition glfwSwapBuffers (window : GLFWwindow) : M unit := call (GlfwSwapBuffers window).

(** ** The functions of main.cpp *)

(** main.cpp, lines 173-175. *)
Definition framebuffer_size_callback (window : GLFWwindow) (width height : Z) : M unit :=
  glViewport 0 0 width height.

(** Running the resize callback once per delivered resize. *)
Fixpoint deliver_resizes (window : GLFWwindow) (sizes : list (Z * Z)) : M unit :=
  match sizes with
  | [] => ret tt
  | (width, height) :: rest =>
      framebuffer_size_callback window width height ;;
      deliver_resizes window rest
  end.

(** [glfwPollEvents]: processes the pending events: runs the resize callback
    when one is registered, and raises the close flag when the user asked to
    close the window.  It never lowers the flag. *)
Definition glfwPollEvents (window : GLFWwindow) : M unit :=
  fun w =>
    let p := env_glfwPollEvents env (trace w) in
    let w1 := log GlfwPollEvents w in
    let w2 := {| trace := trace w1;
                 should_close := should_close w1 || close_requested p;
                 resize_callback_set := resize_callback_set w1 |} in
    if resize_callback_set w2
    then deliver_resizes window (framebuffer_resizes p) w2
    else (Ok tt, w2).

(** main.cpp, lines 178-182. *)
Definition processInput (window : GLFWwindow) : M unit :=
  key <- glfwGetKey window GLFW_KEY_ESCAPE ;;
  if key =? GLFW_PRESS
  then glfwSetWindowShouldClose window true
  else ret tt.

(** main.cpp, lines 185-200. *)
Definition loadShaderSourceFromFile (filePath : string) : M string :=
  try_catch
    (ifstream_open filePath ;;
     shaderStream <- ifstream_rdbuf filePath ;;
     ifstream_close filePath ;;
     ret shaderStream)
    (fun e =>
       stream_write cerr
         ["ERROR::SHADER::FILE_NOT_SUCCESSFULLY_READ: "%string; filePath; nl; what e; endl] ;;
       ret ""%string).

(** main.cpp, lines 203-221.  [infoLog] is a [char] array of
    [INFO_LOG_SIZE] elements. *)
Definition compileShader (type : GLenum) (source : string) : M GLuint :=
  shader <- glCreateShader type ;;
  glShaderSource shader 1 source ;;
  glCompileShader shader ;;
  success <- glGetShaderiv shader GL_COMPILE_STATUS ;;
  if success =? 0 then
    infoLog <- glGetShaderInfoLog shader INFO_LOG_SIZE INFO_LOG_SIZE ;;
    let shaderTypeStr :=
      if (type =? GL_VERTEX_SHADER)%N then "VERTEX"%string else "FRAGMENT"%string in
    stream_write cerr
      ["ERROR::SHADER::"%string; shaderTypeStr;
       ("::COMPILATION_FAILED" ++ nl)%string; infoLog; endl] ;;
    glDeleteShader shader ;;
    ret 0%N
  else
    ret shader.

(** The triangle of lines 108-112. *)
Definition vertices : list GLfloat :=
  [ -0.5; -0.5; 0.0;
     0.5; -0.5; 0.0;
     0.0;  0.5; 0.0 ]%Q.

Definition sizeof_vertices : Z := sizeof_float * Z.of_nat (List.length vertices).

(** The render loop of lines 144-162.  [fuel] bounds the number of
    iterations that are run; the answer is [true] when the loop condition
    ended the loop and [false] when the loop is still running after [fuel]
    iterations. *)
Fixpoint render_loop (fuel : nat) (window : GLFWwindow) (shaderProgram VAO : GLuint)
  : M bool :=
  match fuel with
  | O => ret false
  | S fuel' =>
      closing <- glfwWindowShouldClose window ;;
      if closing then ret true
      else
        glClearColor 0.2%Q 0.3%Q 0.3%Q 1.0%Q ;;
        glClear GL_COLOR_BUFFER_BIT ;;
        glUseProgram shaderProgram ;;
        glBindVertexArray VAO ;;
        glDrawArrays GL_TRIANGLES 0 3 ;;
        processInput window ;;
        glfwPollEvents window ;;
        glfwSwapBuffers window ;;
        render_loop fuel' window shaderProgram VAO
  end.

(** main.cpp, lines 16-170.  The answer is [Some code] when [main] returns
    [code], and [None] when the render loop is still running after [fuel]
    iterations. *)
Definition main (fuel : nat) : M (option Z) :=
  glfwInit ;;
  glfwWindowHint GLFW_CONTEXT_VERSION_MAJOR 3 ;;
  glfwWindowHint GLFW_CONTEXT_VERSION_MINOR 3 ;;
  glfwWindowHint GLFW_OPENGL_PROFILE GLFW_OPENGL_CORE_PROFILE ;;
  window <- glfwCreateWindow SCREEN_WIDTH SCREEN_HEIGHT "LearnOpenGL" ;;
  if (window =? NULL)%N then
    stream_write cerr ["Failed to create GLFW window"%string; endl] ;;
    glfwTerminate ;;
    ret (Some (-1))
  else
  glfwMakeContextCurrent window ;;
  loaded <- gladLoadGLLoader ;;
  if loaded =? 0 then
    stream_write cerr ["Failed to initialize GLAD"%string; endl] ;;
    glfwTerminate ;;
    ret (Some (-1))
  else
  glViewport 0 0 SCREEN_WIDTH SCREEN_HEIGHT ;;
  glfwSetFramebufferSizeCallback window ;;
  vertexShaderSource <- loadShaderSourceFromFile "vshader.vert" ;;
  if (vertexShaderSource =? "")%string then
    glfwTerminate ;;
    ret (Some (-1))
  else
  fragmentShaderSource <- loadShaderSourceFromFile "fshader.frag" ;;
  if (fragmentShaderSource =? "")%string then
    glfwTerminate ;;
    ret (Some (-1))
  else
  vertexShader <- compileShader GL_VERTEX_SHADER vertexShaderSource ;;
  if (vertexShader =? 0)%N then
    glfwTerminate ;;
    ret (Some (-1))
  else
  fragmentShader <- compileShader GL_FRAGMENT_SHADER fragmentShaderSource ;;
  if (fragmentShader =? 0)%N then
    glDeleteShader vertexShader ;;
    glfwTerminate ;;
    ret (Some (-1))
  else
  shaderProgram <- glCreateProgram ;;
  glAttachShader shaderProgram vertexShader ;;
  glAttachShader shaderProgram fragmentShader ;;
  glLinkProgram shaderProgram ;;
  success <- glGetProgramiv shaderProgram GL_LINK_STATUS ;;
  if success =? 0 then
    infoLog <- glGetProgramInfoLog shaderProgram INFO_LOG_SIZE INFO_LOG_SIZE ;;
    stream_write cerr
      [("ERROR::SHADER::PROGRAM::LINKING_FAILED" ++ nl)%string; infoLog; endl] ;;
    glDeleteShader vertexShader ;;
    glDeleteShader fragmentShader ;;
    glDeleteProgram shaderProgram ;;
    glfwTerminate ;;
    ret (Some (-1))
  else
  glDeleteShader vertexShader ;;
  glDeleteShader fragmentShader ;;
  VAO <- glGenVertexArrays 1 ;;
  glBindVertexArray VAO ;;
  VBO <- glGenBuffers 1 ;;
  glBindBuffer GL_ARRAY_BUFFER VBO ;;
  glBufferData GL_ARRAY_BUFFER sizeof_vertices vertices GL_STATIC_DRAW ;;
  glVertexAttribPointer 0%N 3 GL_FLOAT GL_FALSE (3 * sizeof_float) 0 ;;
  glEnableVertexAttribArray 0%N ;;
  glBindBuffer GL_ARRAY_BUFFER 0%N ;;
  glBindVertexArray 0%N ;;
  closed <- render_loop fuel window shaderProgram VAO ;;
  if closed then
    glDeleteVertexArrays 1 VAO ;;
    glDeleteBuffers 1 VBO ;;
    glDeleteProgram shaderProgram ;;
    glfwTerminate ;;
    ret (Some 0)
  else
    ret None.

End Program.

(** ** Reading a call log *)

(** Traces of a run of [main] from the initial state. *)
Definition run (env : environment) (fuel : nat) : result (option Z) * world :=
  main env fuel initial_world.

(** *** GPU objects *)
Inductive kind := Shader | Program | VertexArray | Buffer.

Definition object := (kind * GLuint)%type.

Definition object_eq_dec (a b : object) : {a = b} + {a <> b}.
Proof. repeat decide equality. Defined.

(** The object a call creates; the name 0 stands for no object. *)
Definition creates (e : event) : option object :=
  match e with
  | GlCreateShader _ n => if (n =? 0)%N then None else Some (Shader, n)
  | GlCreateProgram n => if (n =? 0)%N then None else Some (Program, n)
  | GlGenVertexArrays _ n => if (n =? 0)%N then None else Some (VertexArray, n)
  | GlGenBuffers _ n => if (n =? 0)%N then None else Some (Buffer, n)
  | _ => None
  end.

(** The handle a delete call is given, with the kind of the call. *)
Definition deletes (e : event) : option object :=
  match e with
  | GlDeleteShader n => Some (Shader, n)
  | GlDeleteProgram n => Some (Program, n)
  | GlDeleteVertexArrays _ n => Some (VertexArray, n)
  | GlDeleteBuffers _ n => Some (Buffer, n)
  | _ => None
  end.

Definition option_list {A} (o : option A) : list A :=
  match o with Some a => [a] | None => [] end.

Definition created (t : history) : list object :=
  flat_map (fun e => option_list (creates e)) t.

Definition delete_calls (t : history) : list object :=
  flat_map (fun e => option_list (deletes e)) t.

(** The objects that exist after a log: created and not yet handed to the
    delete call of their kind. *)
Definition live_step (l : list object) (e : event) : list object :=
  match creates e, deletes e with
  | Some o, _ => l ++ [o]
  | None, Some o => remove object_eq_dec o l
  | None, None => l
  end.

Definition live (t : history) : list object := fold_left live_step t [].

(** OpenGL keeps shader and program names in one name space, vertex arrays
    and buffers each in their own. *)
Inductive name_space := ShaderProgramNames | VertexArrayNames | BufferNames.

Definition name_space_of (k : kind) : name_space :=
  match k with
  | Shader | Program => ShaderProgramNames
  | VertexArray => VertexArrayNames
  | Buffer => BufferNames
  end.

Definition handle := (name_space * GLuint)%type.

Definition handle_of (o : object) : handle := (name_space_of (fst o), snd o).

(** The contract of [glCreateShader] and [glCreateProgram] on names: the
    name handed out is not the name of an object that exists in the same
    name space. *)
Definition fresh_names (env : environment) : Prop :=
  (forall h type,
      ~ In (ShaderProgramNames, env_glCreateShader env h type) (map handle_of (live h))) /\
  (forall h,
      ~ In (ShaderProgramNames, env_glCreateProgram env h) (map handle_of (live h))).

(** *** The render loop *)

(** The call the resize callback makes for one delivered resize. *)
Definition viewport_of (s : Z * Z) : event := GlViewport 0 0 (fst s) (snd s).

(** The calls of one iteration of the render loop, given the key state
    that [glfwGetKey] answered and the resizes that [glfwPollEvents]
    delivered. *)
Definition iteration_events (window : GLFWwindow) (shaderProgram VAO : GLuint)
  (key : Z) (resizes : list (Z * Z)) : list event :=
  [ GlfwWindowShouldClose window false;
    GlClearColor 0.2%Q 0.3%Q 0.3%Q 1.0%Q;
    GlClear GL_COLOR_BUFFER_BIT;
    GlUseProgram shaderProgram;
    GlBindVertexArray VAO;
    GlDrawArrays GL_TRIANGLES 0 3;
    GlfwGetKey window GLFW_KEY_ESCAPE key ]
  ++ (if (key =? GLFW_PRESS)%Z then [GlfwSetWindowShouldClose window true] else [])
  ++ [ GlfwPollEvents ]
  ++ map viewport_of resizes
  ++ [ GlfwSwapBuffers window ].

(** The calls of a sequence of iterations, each given by its key state and
    its resizes. *)
Definition loop_events (window : GLFWwindow) (shaderProgram VAO : GLuint)
  (iters : list (Z * list (Z * Z))) : list event :=
  flat_map (fun i => iteration_events window shaderProgram VAO (fst i) (snd i)) iters.

Definition is_draw (e : event) : bool :=
  match e with GlDrawArrays _ _ _ => true | _ => false end.

(** *** The calls of each stage

    The calls that each stage of the program makes, as a function of the
    answers it got.  The lemmas below show that the code makes exactly
    these calls. *)

(** Appending calls to the log of a state. *)
Definition emit (events : list event) (w : world) : world :=
  {| trace := trace w ++ events;
     should_close := should_close w;
     resize_callback_set := resize_callback_set w |}.

(** How a call of [loadShaderSourceFromFile] went. *)
Inductive load_outcome :=
| OpenFailed (e : ios_failure)
| CloseFailed (r : rdbuf_result) (e : ios_failure)
| Loaded (r : rdbuf_result).

Definition load_report (path : string) (e : ios_failure) : event :=
  StreamWrite cerr
    ["ERROR::SHADER::FILE_NOT_SUCCESSFULLY_READ: "%string; path; nl; what e; endl].

Definition load_events (path : string) (o : load_outcome) : list event :=
  match o with
  | OpenFailed e =>
      [IfstreamOpen path (Some e); load_report path e]
  | CloseFailed r e =>
      [IfstreamOpen path None; IfstreamRdbuf path (delivered r) (read_error r);
       IfstreamClose path (Some e); load_report path e]
  | Loaded r =>
      [IfstreamOpen path None; IfstreamRdbuf path (delivered r) (read_error r);
       IfstreamClose path None]
  end.

Definition load_result (o : load_outcome) : string :=
  match o with
  | Loaded r => delivered r
  | _ => ""%string
  end.

(** How a call of [compileShader] went: the compile status was 0 and the
    driver's log was [full], or the status was something else. *)
Inductive compile_outcome :=
| CompileFailed (full : string)
| Compiled (status : GLint).

Definition shader_kind_tag (type : GLenum) : string :=
  if (type =? GL_VERTEX_SHADER)%N then "VERTEX"%string else "FRAGMENT"%string.

Definition compile_report (type : GLenum) (infoLog : string) : event :=
  StreamWrite cerr
    ["ERROR::SHADER::"%string; shader_kind_tag type;
     ("::COMPILATION_FAILED" ++ nl)%string; infoLog; endl].

Definition compile_events (type : GLenum) (source : string) (shader : GLuint)
  (o : compile_outcome) : list event :=
  [GlCreateShader type shader; GlShaderSource shader 1 source; GlCompileShader shader] ++
  match o with
  | CompileFailed full =>
      [GlGetShaderiv shader GL_COMPILE_STATUS 0;
       GlGetShaderInfoLog shader INFO_LOG_SIZE INFO_LOG_SIZE
         (info_log_written INFO_LOG_SIZE full);
       compile_report type (info_log_written INFO_LOG_SIZE full);
       GlDeleteShader shader]
  | Compiled status =>
      [GlGetShaderiv shader GL_COMPILE_STATUS status]
  end.

Definition compile_result (shader : GLuint) (o : compile_outcome) : GLuint :=
  match o with
  | CompileFailed _ => 0%N
  | Compiled _ => shader
  end.

Definition compile_outcome_ok (o : compile_outcome) : Prop :=
  match o with
  | CompileFailed _ => True
  | Compiled status => status <> 0
  end.

(** Lines 20-26. *)
Definition startup_events (window : GLFWwindow) : list event :=
  [GlfwInit;
   GlfwWindowHint GLFW_CONTEXT_VERSION_MAJOR 3;
   GlfwWindowHint GLFW_CONTEXT_VERSION_MINOR 3;
   GlfwWindowHint GLFW_OPENGL_PROFILE GLFW_OPENGL_CORE_PROFILE;
   GlfwCreateWindow SCREEN_WIDTH SCREEN_HEIGHT "LearnOpenGL" window].

Definition no_window_report : event :=
  StreamWrite cerr ["Failed to create GLFW window"%string; endl].

Definition no_glad_report : event :=
  StreamWrite cerr ["Failed to initialize GLAD"%string; endl].

(** Lines 20-43, when the window and the function loader are there. *)
Definition setup_events (window : GLFWwindow) (loaded : Z) : list event :=
  startup_events window ++
  [GlfwMakeContextCurrent window; GladLoadGLLoader loaded;
   GlViewport 0 0 SCREEN_WIDTH SCREEN_HEIGHT;
   GlfwSetFramebufferSizeCallback window].

(** Lines 79-89. *)
Definition link_events (shaderProgram vertexShader fragmentShader : GLuint)
  (status : GLint) : list event :=
  [GlCreateProgram shaderProgram;
   GlAttachShader shaderProgram vertexShader;
   GlAttachShader shaderProgram fragmentShader;
   GlLinkProgram shaderProgram;
   GlGetProgramiv shaderProgram GL_LINK_STATUS status].

Definition link_report (infoLog : string) : event :=
  StreamWrite cerr
    [("ERROR::SHADER::PROGRAM::LINKING_FAILED" ++ nl)%string; infoLog; endl].

(** Lines 91-97, with [full] the driver's log. *)
Definition link_failure_events (shaderProgram vertexShader fragmentShader : GLuint)
  (full : string) : list event :=
  [GlGetProgramInfoLog shaderProgram INFO_LOG_SIZE INFO_LOG_SIZE
     (info_log_written INFO_LOG_SIZE full);
   link_report (info_log_written INFO_LOG_SIZE full);
   GlDeleteShader vertexShader;
   GlDeleteShader fragmentShader;
   GlDeleteProgram shaderProgram;
   GlfwTerminate].

(** Lines 102-141. *)
Definition vertex_events (vertexShader fragmentShader VAO VBO : GLuint) : list event :=
  [GlDeleteShader vertexShader;
   GlDeleteShader fragmentShader;
   GlGenVertexArrays 1 VAO;
   GlBindVertexArray VAO;
   GlGenBuffers 1 VBO;
   GlBindBuffer GL_ARRAY_BUFFER VBO;
   GlBufferData GL_ARRAY_BUFFER sizeof_vertices vertices GL_STATIC_DRAW;
   GlVertexAttribPointer 0%N 3 GL_FLOAT GL_FALSE (3 * sizeof_float) 0;
   GlEnableVertexAttribArray 0%N;
   GlBindBuffer GL_ARRAY_BUFFER 0%N;
   GlBindVertexArray 0%N].

(** Lines 165-168. *)
Definition shutdown_events (VAO VBO shaderProgram : GLuint) : list event :=
  [GlDeleteVertexArrays 1 VAO;
   GlDeleteBuffers 1 VBO;
   GlDeleteProgram shaderProgram;
   GlfwTerminate].

(** Everything up to the end of the two loads, both non-empty. *)
Definition sources_events (window : GLFWwindow) (loaded : Z)
  (vertexSource fragmentSource : rdbuf_result) : list event :=
  setup_events window loaded ++
  load_events "vshader.vert" (Loaded vertexSource) ++
  load_events "fshader.frag" (Loaded fragmentSource).

(** Everything up to the end of the two compilations, both successful. *)
Definition shaders_events (window : GLFWwindow) (loaded : Z)
  (vertexSource fragmentSource : rdbuf_result)
  (vertexShader : GLuint) (vertexStatus : GLint)
  (fragmentShader : GLuint) (fragmentStatus : GLint) : list event :=
  sources_events window loaded vertexSource fragmentSource ++
  compile_events GL_VERTEX_SHADER (delivered vertexSource) vertexShader
    (Compiled vertexStatus) ++
  compile_events GL_FRAGMENT_SHADER (delivered fragmentSource) fragmentShader
    (Compiled fragmentStatus).

(** *** The paths through [main]

    [main_path t code] holds when [t] is the call log of one way through
    [main] and [code] the value [main] returned on it, [None] standing for
    a render loop that is still running. *)
Inductive main_path : history -> option Z -> Prop :=
| path_no_window :
    main_path (startup_events NULL ++ [no_window_report; GlfwTerminate]) (Some (-1))
| path_no_glad window :
    window <> NULL ->
    main_path (startup_events window ++
               [GlfwMakeContextCurrent window; GladLoadGLLoader 0;
                no_glad_report; GlfwTerminate]) (Some (-1))
| path_no_vertex_source window loaded o :
    window <> NULL -> loaded <> 0 ->
    load_result o = ""%string ->
    main_path (setup_events window loaded ++
               load_events "vshader.vert" o ++ [GlfwTerminate]) (Some (-1))
| path_no_fragment_source window loaded vertexSource o :
    window <> NULL -> loaded <> 0 ->
    delivered vertexSource <> ""%string ->
    load_result o = ""%string ->
    main_path (setup_events window loaded ++
               load_events "vshader.vert" (Loaded vertexSource) ++
               load_events "fshader.frag" o ++ [GlfwTerminate]) (Some (-1))
| path_no_vertex_shader window loaded vertexSource fragmentSource shader o :
    window <> NULL -> loaded <> 0 ->
    delivered vertexSource <> ""%string -> delivered fragmentSource <> ""%string ->
    compile_outcome_ok o ->
    compile_result shader o = 0%N ->
    main_path (sources_events window loaded vertexSource fragmentSource ++
               compile_events GL_VERTEX_SHADER (delivered vertexSource) shader o ++
               [GlfwTerminate]) (Some (-1))
| path_no_fragment_shader window loaded vertexSource fragmentSource
    vertexShader vertexStatus shader o :
    window <> NULL -> loaded <> 0 ->
    delivered vertexSource <> ""%string -> delivered fragmentSource <> ""%string ->
    vertexShader <> 0%N -> vertexStatus <> 0 ->
    compile_outcome_ok o ->
    compile_result shader o = 0%N ->
    main_path (sources_events window loaded vertexSource fragmentSource ++
               compile_events GL_VERTEX_SHADER (delivered vertexSource) vertexShader
                 (Compiled vertexStatus) ++
               compile_events GL_FRAGMENT_SHADER (delivered fragmentSource) shader o ++
               [GlDeleteShader vertexShader; GlfwTerminate]) (Some (-1))
| path_link_failed window loaded vertexSource fragmentSource
    vertexShader vertexStatus fragmentShader fragmentStatus shaderProgram full :
    window <> NULL -> loaded <> 0 ->
    delivered vertexSource <> ""%string -> delivered fragmentSource <> ""%string ->
    vertexShader <> 0%N -> vertexStatus <> 0 ->
    fragmentShader <> 0%N -> fragmentStatus <> 0 ->
    main_path (shaders_events window loaded vertexSource fragmentSource
                 vertexShader vertexStatus fragmentShader fragmentStatus ++
               link_events shaderProgram vertexShader fragmentShader 0 ++
               link_failure_events shaderProgram vertexShader fragmentShader full)
              (Some (-1))
| path_rendering window loaded vertexSource fragmentSource
    vertexShader vertexStatus fragmentShader fragmentStatus shaderProgram status
    VAO VBO iters (closed : bool) :
    window <> NULL -> loaded <> 0 ->
    delivered vertexSource <> ""%string -> delivered fragmentSource <> ""%string ->
    vertexShader <> 0%N -> vertexStatus <> 0 ->
    fragmentShader <> 0%N -> fragmentStatus <> 0 ->
    status <> 0 ->
    (forall pre i post, iters = pre ++ i :: post -> post <> [] -> fst i <> GLFW_PRESS) ->
    main_path (shaders_events window loaded vertexSource fragmentSource
                 vertexShader vertexStatus fragmentShader fragmentStatus ++
               link_events shaderProgram vertexShader fragmentShader status ++
               vertex_events vertexShader fragmentShader VAO VBO ++
               loop_events window shaderProgram VAO iters ++
               (if closed
                then GlfwWindowShouldClose window true ::
                     shutdown_events VAO VBO shaderProgram
                else []))
              (if closed then Some 0 else None).

(** *** What the environment answers to a call made from a given state *)

(** The name [glCreateShader] hands out, and the compile status
    [glGetShaderiv] answers, when [compileShader type source] runs from
    state [w]. *)
Definition created_shader (env : environment) (type : GLenum) (w : world) : GLuint :=
  env_glCreateShader env (trace w) type.

Definition compile_status (env : environment) (type : GLenum) (source : string)
  (w : world) : GLint :=
  let shader := created_shader env type w in
  env_glGetShaderiv env
    (trace w ++ [GlCreateShader type shader; GlShaderSource shader 1 source;
                 GlCompileShader shader])
    shader GL_COMPILE_STATUS.

(** How the file operations of [loadShaderSourceFromFile path] go when it
    runs from state [w]. *)
Definition open_failure (env : environment) (path : string) (w : world)
  : option ios_failure :=
  env_open env (trace w) path.

Definition file_read (env : environment) (path : string) (w : world) : rdbuf_result :=
  env_rdbuf env (trace w ++ [IfstreamOpen path None]) path.

Definition close_failure (env : environment) (path : string) (w : world)
  : option ios_failure :=
  let r := file_read env path w in
  env_close env
    (trace w ++ [IfstreamOpen path None; IfstreamRdbuf path (delivered r) (read_error r)])
    path.



(** The state of the escape key that [processInput] reads from state [w]. *)
Definition escape_key (env : environment) (window : GLFWwindow) (w : world) : Z :=
  env_glfwGetKey env (trace w) window GLFW_KEY_ESCAPE.

(** *** Kinds of calls *)

Definition is_report (e : event) : bool :=
  match e with StreamWrite _ _ => true | _ => false end.

Definition is_link_call (e : event) : bool :=
  match e with
  | GlCreateProgram _ | GlAttachShader _ _ | GlLinkProgram _ => true
  | _ => false
  end.


(** The calls that only the render loop makes. *)
Definition is_frame_call (e : event) : bool :=
  match e with
  | GlfwWindowShouldClose _ false
  | GlClearColor _ _ _ _ | GlClear _ | GlUseProgram _ | GlDrawArrays _ _ _
  | GlfwGetKey _ _ _ | GlfwSetWindowShouldClose _ _
  | GlfwPollEvents | GlfwSwapBuffers _ => true
  | _ => false
  end.

(** The calls that create or delete a GPU object. *)
Definition is_lifetime_call (e : event) : bool :=
  match e with
  | GlCreateShader _ _ | GlCreateProgram _ | GlGenVertexArrays _ _ | GlGenBuffers _ _
  | GlDeleteShader _ | GlDeleteProgram _ | GlDeleteVertexArrays _ _ | GlDeleteBuffers _ _ =>
      true
  | _ => false
  end.

(** *** Fresh names

    [names_fresh t] checks along the log [t] that every creation call was
    answered with a name that no existing object of the same name space
    had at that moment, as OpenGL promises. *)
Definition name_space_eqb (a b : name_space) : bool :=
  match a, b with
  | ShaderProgramNames, ShaderProgramNames
  | VertexArrayNames, VertexArrayNames
  | BufferNames, BufferNames => true
  | _, _ => false
  end.

Definition handle_eqb (a b : handle) : bool :=
  name_space_eqb (fst a) (fst b) && (snd a =? snd b)%N.

Definition in_use (l : list object) (o : object) : bool :=
  existsb (fun o' => handle_eqb (handle_of o') (handle_of o)) l.

Fixpoint names_fresh_from (l : list object) (t : history) : bool :=
  match t with
  | [] => true
  | e :: t' =>
      match creates e with
      | Some o => negb (in_use l o)
      | None => true
      end && names_fresh_from (live_step l e) t'
  end.

Definition names_fresh (t : history) : bool := names_fresh_from [] t.

(** *** Objects deleted exactly once

    Every object created in the log was handed exactly once to the delete
    call of its kind, no handle was handed to a delete call twice, and no
    object exists at the end of the log. *)
Definition deleted_once (t : history) : Prop :=
  (forall o, In o (created t) -> count_occ object_eq_dec (delete_calls t) o = 1%nat) /\
  NoDup (map handle_of (delete_calls t)) /\
  live t = [].

(** *** The entry of the render loop *)

(** The log up to the first evaluation of the loop condition. *)
Fixpoint loop_entry (t : history) : history :=
  match t with
  | [] => []
  | GlfwWindowShouldClose _ _ :: _ => []
  | e :: t' => e :: loop_entry t'
  end.

Definition of_kind (k : kind) (l : list object) : list object :=
  filter (fun o => match k, fst o with
                   | Shader, Shader | Program, Program
                   | VertexArray, VertexArray | Buffer, Buffer => true
                   | _, _ => false
                   end) l.

(** *** Draw calls and the loop condition *)

(** [draws_guarded armed t]: every draw call in [t] comes after an
    evaluation of the loop condition that answered [false], with no other
    evaluation and no other draw call in between.  [armed] tells whether
    such an evaluation is pending when [t] starts. *)
Fixpoint draws_guarded (armed : bool) (t : history) : bool :=
  match t with
  | [] => true
  | GlfwWindowShouldClose _ ret :: t' => draws_guarded (negb ret) t'
  | GlDrawArrays _ _ _ :: t' => armed && draws_guarded false t'
  | _ :: t' => draws_guarded armed t'
  end.

(** [quiet_after stop t]: no draw call in [t] comes after a call that
    satisfies [stop]. *)
Fixpoint quiet_after (stop : event -> bool) (stopped : bool) (t : history) : bool :=
  match t with
  | [] => true
  | e :: t' => negb (stopped && is_draw e) && quiet_after stop (stopped || stop e) t'
  end.

Definition is_check (e : event) : bool :=
  match e with GlfwWindowShouldClose _ _ => true | _ => false end.

Definition observes_close (e : event) : bool :=
  match e with GlfwWindowShouldClose _ true => true | _ => false end.

Definition raises_close_flag (e : event) : bool :=
  match e with GlfwSetWindowShouldClose _ true => true | _ => false end.

(** *** Buffer objects

    What the buffer calls of the program do to the data stores of the
    buffer objects: [glBindBuffer] selects the buffer bound to
    GL_ARRAY_BUFFER, [glBufferData] replaces the data store of the bound
    buffer, [glDeleteBuffers] removes the buffer. *)
Record buffer_state := {
  array_buffer_binding : GLuint;
  buffer_data : GLuint -> option (list GLfloat)
}.

Definition no_buffers : buffer_state :=
  {| array_buffer_binding := 0%N; buffer_data := fun _ => None |}.

Definition buffer_step (s : buffer_state) (e : event) : buffer_state :=
  match e with
  | GlBindBuffer target buffer =>
      if (target =? GL_ARRAY_BUFFER)%N
      then {| array_buffer_binding := buffer; buffer_data := buffer_data s |}
      else s
  | GlBufferData target _ data _ =>
      if (target =? GL_ARRAY_BUFFER)%N && negb (array_buffer_binding s =? 0)%N
      then {| array_buffer_binding := array_buffer_binding s;
              buffer_data := fun b => if (b =? array_buffer_binding s)%N
                                      then Some data else buffer_data s b |}
      else s
  | GlDeleteBuffers _ buffer =>
      {| array_buffer_binding :=
           if (array_buffer_binding s =? buffer)%N then 0%N else array_buffer_binding s;
         buffer_data := fun b => if (b =? buffer)%N then None else buffer_data s b |}
  | _ => s
  end.


(** *** Reports

    The forms a line written by the program can take. *)
Definition report_form (pieces : list string) : Prop :=
  pieces = ["Failed to create GLFW window"%string; endl] \/
  pieces = ["Failed to initialize GLAD"%string; endl] \/
  (exists path reason,
      pieces = ["ERROR::SHADER::FILE_NOT_SUCCESSFULLY_READ: "%string; path; nl;
                reason; endl]) \/
  (exists kind infoLog,
      (kind = "VERTEX"%string \/ kind = "FRAGMENT"%string) /\
      Z.of_nat (String.length infoLog) < INFO_LOG_SIZE /\
      pieces = ["ERROR::SHADER::"%string; kind;
                ("::COMPILATION_FAILED" ++ nl)%string; infoLog; endl]) \/
  (exists infoLog,
      Z.of_nat (String.length infoLog) < INFO_LOG_SIZE /\
      pieces = [("ERROR::SHADER::PROGRAM::LINKING_FAILED" ++ nl)%string; infoLog; endl]).

(** The last call of a log. *)
Definition last_call (t : history) : option event := List.last (map Some t) None.

(** The number of draw calls in a log. *)
Definition draws (t : history) : nat := List.length (filter is_draw t).

(** A run of [main] ended without an exception, along one of the paths;
    when the fuel ran out, the log holds as many draw calls as there was
    fuel, and fewer when [main] returned. *)
Definition follows_path (fuel : nat) (x : result (option Z) * world) : Prop :=
  exists code w,
    x = (Ok code, w) /\
    main_path (trace w) code /\
    match code with
    | None => draws (trace w) = fuel
    | Some _ => (draws (trace w) <= fuel)%nat
    end.

(** *** The context of the OpenGL calls *)

Definition is_terminate (e : event) : bool :=
  match e with GlfwTerminate => true | _ => false end.

(** The calls into OpenGL proper, whose function pointers the loader
    provides. *)
Definition is_gl_call (e : event) : bool :=
  match e with
  | GlViewport _ _ _ _
  | GlCreateShader _ _ | GlShaderSource _ _ _ | GlCompileShader _
  | GlGetShaderiv _ _ _ | GlGetShaderInfoLog _ _ _ _ | GlDeleteShader _
  | GlCreateProgram _ | GlAttachShader _ _ | GlLinkProgram _
  | GlGetProgramiv _ _ _ | GlGetProgramInfoLog _ _ _ _ | GlDeleteProgram _
  | GlGenVertexArrays _ _ | GlBindVertexArray _ | GlGenBuffers _ _
  | GlBindBuffer _ _ | GlBufferData _ _ _ _
  | GlVertexAttribPointer _ _ _ _ _ _ | GlEnableVertexAttribArray _
  | GlDeleteVertexArrays _ _ | GlDeleteBuffers _ _
  | GlClearColor _ _ _ _ | GlClear _ | GlUseProgram _ | GlDrawArrays _ _ _ => true
  | _ => false
  end.

(** The calls that change whether OpenGL can be called. *)
Definition is_context_call (e : event) : bool :=
  match e with
  | GlfwMakeContextCurrent _ | GladLoadGLLoader _ | GlfwTerminate => true
  | _ => false
  end.

(** Whether a context is current, and whether the loader has succeeded
    with it: [glfwMakeContextCurrent] makes the context of a window
    current, [gladLoadGLLoader] succeeds or not, [glfwTerminate] destroys
    everything. *)
Definition ready_step (s : bool * bool) (e : event) : bool * bool :=
  match e with
  | GlfwMakeContextCurrent window => (negb (window =? NULL)%N, snd s)
  | GladLoadGLLoader r => (fst s, fst s && negb (r =? 0))
  | GlfwTerminate => (false, false)
  | _ => s
  end.

(** After the log [t], a context is current and the loader has succeeded. *)
Definition context_ready (t : history) : bool :=
  let s := fold_left ready_step t (false, false) in fst s && snd s.

(** Every OpenGL call of [t] is made in a state that is ready. *)
Fixpoint gl_calls_ready (s : bool * bool) (t : history) : bool :=
  match t with
  | [] => true
  | e :: t' =>
      (negb (is_gl_call e) || (fst s && snd s)) && gl_calls_ready (ready_step s e) t'
  end.

(** *** Vertex arrays

    What the vertex array calls of the program do to the vertex array
    objects: [glBindVertexArray] selects the bound vertex array;
    [glVertexAttribPointer] records in it, for one attribute, the buffer
    bound to GL_ARRAY_BUFFER at that moment and the layout of the
    attribute in that buffer; [glEnableVertexAttribArray] enables the
    attribute in it; [glDeleteVertexArrays] removes the vertex array.
    Without a bound vertex array the two attribute calls are errors and
    change nothing. *)
Record attribute_pointer := {
  pointer_buffer : GLuint;
  pointer_size : GLint;
  pointer_type : GLenum;
  pointer_stride : GLsizei;
  pointer_offset : Z
}.

Record vertex_array_state := {
  vertex_array_binding : GLuint;
  attribute : GLuint -> GLuint -> option attribute_pointer;
  attribute_enabled : GLuint -> GLuint -> bool
}.

Definition no_vertex_arrays : vertex_array_state :=
  {| vertex_array_binding := 0%N;
     attribute := fun _ _ => None;
     attribute_enabled := fun _ _ => false |}.

Definition vertex_array_step (b : buffer_state) (s : vertex_array_state) (e : event)
  : vertex_array_state :=
  match e with
  | GlBindVertexArray array =>
      {| vertex_array_binding := array;
         attribute := attribute s;
         attribute_enabled := attribute_enabled s |}
  | GlVertexAttribPointer index size type _ stride pointer =>
      if (vertex_array_binding s =? 0)%N then s
      else
        {| vertex_array_binding := vertex_array_binding s;
           attribute := fun a i =>
             if (a =? vertex_array_binding s)%N && (i =? index)%N
             then Some {| pointer_buffer := array_buffer_binding b;
                          pointer_size := size;
                          pointer_type := type;
                          pointer_stride := stride;
                          pointer_offset := pointer |}
             else attribute s a i;
           attribute_enabled := attribute_enabled s |}
  | GlEnableVertexAttribArray index =>
      if (vertex_array_binding s =? 0)%N then s
      else
        {| vertex_array_binding := vertex_array_binding s;
           attribute := attribute s;
           attribute_enabled := fun a i =>
             (a =? vertex_array_binding s)%N && (i =? index)%N || attribute_enabled s a i |}
  | GlDeleteVertexArrays _ array =>
      {| vertex_array_binding :=
           if (vertex_array_binding s =? array)%N then 0%N else vertex_array_binding s;
         attribute := fun a i => if (a =? array)%N then None else attribute s a i;
         attribute_enabled := fun a i =>
           if (a =? array)%N then false else attribute_enabled s a i |}
  | _ => s
  end.

(** Buffers and vertex arrays together. *)
Definition gl_state := (buffer_state * vertex_array_state)%type.

Definition gl_step (s : gl_state) (e : event) : gl_state :=
  (buffer_step (fst s) e, vertex_array_step (fst s) (snd s) e).

Definition gl_state_after (t : history) : gl_state :=
  fold_left gl_step t (no_buffers, no_vertex_arrays).

(** The calls that change the buffers or the vertex arrays. *)
Definition is_vertex_call (e : event) : bool :=
  match e with
  | GlBindBuffer _ _ | GlBufferData _ _ _ _ | GlDeleteBuffers _ _
  | GlBindVertexArray _ | GlVertexAttribPointer _ _ _ _ _ _
  | GlEnableVertexAttribArray _ | GlDeleteVertexArrays _ _ => true
  | _ => false
  end.

(** The bytes that a draw of the vertices [first .. first + count - 1]
    reads through the attribute pointer [a] lie inside the data store of
    its buffer: the last vertex starts [first + count - 1] strides after
    the offset and has [pointer_size a] floats. *)
Definition attribute_in_bounds (b : buffer_state) (a : attribute_pointer)
  (first count : Z) : Prop :=
  exists data,
    buffer_data b (pointer_buffer a) = Some data /\
    pointer_type a = GL_FLOAT /\
    0 < pointer_stride a /\
    0 <= pointer_offset a + first * pointer_stride a /\
    pointer_offset a + (first + count - 1) * pointer_stride a +
      pointer_size a * sizeof_float <=
    sizeof_float * Z.of_nat (List.length data).

(** A draw in state [s]: a vertex array is bound, attribute 0, which the
    vertex shader reads as [aPos], is enabled in it, and every attribute
    enabled in it reads inside a buffer that has a data store. *)
Definition draw_reads_inside (s : gl_state) (first count : Z) : Prop :=
  vertex_array_binding (snd s) <> 0%N /\
  attribute_enabled (snd s) (vertex_array_binding (snd s)) 0%N = true /\
  forall index,
    attribute_enabled (snd s) (vertex_array_binding (snd s)) index = true ->
    exists a,
      attribute (snd s) (vertex_array_binding (snd s)) index = Some a /\
      attribute_in_bounds (fst s) a first count.

(** The triangle is set up in the vertex array [VAO] from the buffer
    [VBO]. *)
Definition triangle_set_up (VAO VBO : GLuint) (s : gl_state) : Prop :=
  buffer_data (fst s) VBO = Some vertices /\
  attribute (snd s) VAO 0%N =
    Some {| pointer_buffer := VBO; pointer_size := 3; pointer_type := GL_FLOAT;
            pointer_stride := 3 * sizeof_float; pointer_offset := 0 |} /\
  attribute_enabled (snd s) VAO 0%N = true /\
  forall index, attribute_enabled (snd s) VAO index = true -> index = 0%N.

(** *** Polls and resizes *)

Definition is_poll (e : event) : bool :=
  match e with GlfwPollEvents => true | _ => false end.

(** The calls of an iteration up to its poll, given the key state that
    [glfwGetKey] answered. *)
Definition before_poll (window : GLFWwindow) (shaderProgram VAO : GLuint) (key : Z)
  : list event :=
  [ GlfwWindowShouldClose window false;
    GlClearColor 0.2%Q 0.3%Q 0.3%Q 1.0%Q;
    GlClear GL_COLOR_BUFFER_BIT;
    GlUseProgram shaderProgram;
    GlBindVertexArray VAO;
    GlDrawArrays GL_TRIANGLES 0 3;
    GlfwGetKey window GLFW_KEY_ESCAPE key ]
  ++ (if (key =? GLFW_PRESS)%Z then [GlfwSetWindowShouldClose window true] else []).

(** *** The render loop and the shutdown

    Lines 144-170 of [main], as a function of the objects that the lines
    before them have set up. *)
Definition render_and_shutdown (env : environment) (fuel : nat) (window : GLFWwindow)
  (shaderProgram VAO VBO : GLuint) : M (option Z) :=
  (closed <- render_loop env fuel window shaderProgram VAO ;;
   if closed then
     glDeleteVertexArrays 1 VAO ;;
     glDeleteBuffers 1 VBO ;;
     glDeleteProgram shaderProgram ;;
     glfwTerminate ;;
     ret (Some 0)
   else
     ret None)%prog.

(** A family of runs, one for each bound on the number of iterations,
    that all return -1 from the same state, or all enter the render loop
    from the same state: there the close flag is down, the resize callback
    is registered and no call of the render loop has been made. *)
Definition reaches_loop (env : environment) (g : nat -> result (option Z) * world) : Prop :=
  (exists w, should_close w = false /\ filter is_frame_call (trace w) = [] /\
             forall fuel, g fuel = (Ok (Some (-1)), w)) \/
  (exists window shaderProgram VAO VBO w,
     should_close w = false /\ resize_callback_set w = true /\
     filter is_frame_call (trace w) = [] /\
     forall fuel, g fuel = render_and_shutdown env fuel window shaderProgram VAO VBO w).

(** ** A concrete environment

    A driver that hands out, in each name space, the name after the largest
    one it has handed out so far, a file system with two files, and a user who presses escape
    or closes the window at a chosen frame.  The scenario fields select the
    failure to exercise. *)
Module Demo.

Record scenario := {
  sc_window : GLFWwindow;               (* what glfwCreateWindow returns *)
  sc_glad : Z;                          (* what gladLoadGLLoader returns *)
  sc_open_fails : string -> bool;       (* paths that cannot be opened *)
  sc_contents : string -> string;       (* what reading each file delivers *)
  sc_read_error : string -> bool;       (* paths whose read stops on an error *)
  sc_compile : GLenum -> GLint;         (* compile status by shader type *)
  sc_link : GLint;                      (* link status *)
  sc_log : string;                      (* the driver's diagnostic text *)
  sc_escape_after : nat;                (* escape is down after that many polls *)
  sc_close_at : nat;                    (* the poll that delivers a close request *)
  sc_resizes : list (Z * Z)             (* resizes delivered by every poll *)
}.

Definition polls (h : history) : nat :=
  List.length (filter (fun e => match e with GlfwPollEvents => true | _ => false end) h).

Definition max_name (ns : name_space) (l : list object) : N :=
  fold_right N.max 0%N
    (map snd (filter (fun o => match ns, name_space_of (fst o) with
                               | ShaderProgramNames, ShaderProgramNames
                               | VertexArrayNames, VertexArrayNames
                               | BufferNames, BufferNames => true
                               | _, _ => false
                               end) l)).

Definition next_name (ns : name_space) (h : history) : GLuint :=
  N.succ (max_name ns (created h)).

(** The type given to [glCreateShader] when it answered [shader]. *)
Fixpoint type_of_shader (h : history) (shader : GLuint) : GLenum :=
  match h with
  | [] => 0%N
  | GlCreateShader type n :: h' =>
      if (n =? shader)%N then type else type_of_shader h' shader
  | _ :: h' => type_of_shader h' shader
  end.

Definition env (sc : scenario) : environment :=
  {| env_glfwCreateWindow := fun _ => sc_window sc;
     env_gladLoadGLLoader := fun _ => sc_glad sc;
     env_open := fun _ path =>
       if sc_open_fails sc path
       then Some {| what := "basic_ios::clear: iostream error" |}
       else None;
     env_rdbuf := fun _ path =>
       {| delivered := sc_contents sc path; read_error := sc_read_error sc path |};
     env_close := fun _ _ => None;
     env_glCreateShader := fun h _ => next_name ShaderProgramNames h;
     env_glGetShaderiv := fun h shader _ => sc_compile sc (type_of_shader h shader);
     env_shaderInfoLog := fun _ _ => sc_log sc;
     env_glCreateProgram := fun h => next_name ShaderProgramNames h;
     env_glGetProgramiv := fun _ _ _ => sc_link sc;
     env_programInfoLog := fun _ _ => sc_log sc;
     env_glGenVertexArrays := fun h => next_name VertexArrayNames h;
     env_glGenBuffers := fun h => next_name BufferNames h;
     env_glfwGetKey := fun h _ _ =>
       if (sc_escape_after sc <=? polls h)%nat then GLFW_PRESS else GLFW_RELEASE;
     env_glfwPollEvents := fun h =>
       {| framebuffer_resizes := sc_resizes sc;
          close_requested := (polls h =? sc_close_at sc)%nat |} |}.

Definition files (path : string) : string :=
  if (path =? "vshader.vert")%string then "void main() { gl_Position = vec4(0); }"
  else if (path =? "fshader.frag")%string then "void main() { }"
  else "".

(** Everything works; escape is down after the second poll. *)
Definition good : scenario :=
  {| sc_window := 1%N; sc_glad := 1;
     sc_open_fails := fun _ => false;
     sc_contents := files;
     sc_read_error := fun _ => false;
     sc_compile := fun _ => 1;
     sc_link := 1;
     sc_log := "0:1(1): error: syntax error";
     sc_escape_after := 2;
     sc_close_at := 5;
     sc_resizes := [] |}.

(** As [good], with the window resized twice before every poll. *)
Definition resized : scenario :=
  {| sc_window := sc_window good; sc_glad := sc_glad good;
     sc_open_fails := sc_open_fails good; sc_contents := sc_contents good;
     sc_read_error := sc_read_error good;
     sc_compile := sc_compile good; sc_link := sc_link good; sc_log := sc_log good;
     sc_escape_after := sc_escape_after good; sc_close_at := sc_close_at good;
     sc_resizes := [(1024, 768); (640, 480)] |}.

Definition no_window : scenario :=
  {| sc_window := NULL; sc_glad := sc_glad good;
     sc_open_fails := sc_open_fails good; sc_contents := sc_contents good;
     sc_read_error := sc_read_error good;
     sc_compile := sc_compile good; sc_link := sc_link good; sc_log := sc_log good;
     sc_escape_after := sc_escape_after good; sc_close_at := sc_close_at good;
     sc_resizes := sc_resizes good |}.

Definition missing (path : string) : scenario :=
  {| sc_window := sc_window good; sc_glad := sc_glad good;
     sc_open_fails := fun p => (p =? path)%string; sc_contents := sc_contents good;
     sc_read_error := sc_read_error good;
     sc_compile := sc_compile good; sc_link := sc_link good; sc_log := sc_log good;
     sc_escape_after := sc_escape_after good; sc_close_at := sc_close_at good;
     sc_resizes := sc_resizes good |}.


(** The file at [path] opens, but reading it stops on an error after
    [partial] was delivered. *)
Definition unreadable (path partial : string) : scenario :=
  {| sc_window := sc_window good; sc_glad := sc_glad good;
     sc_open_fails := sc_open_fails good;
     sc_contents := fun p => if (p =? path)%string then partial else files p;
     sc_read_error := fun p => (p =? path)%string;
     sc_compile := sc_compile good; sc_link := sc_link good; sc_log := sc_log good;
     sc_escape_after := sc_escape_after good; sc_close_at := sc_close_at good;
     sc_resizes := sc_resizes good |}.

Definition bad_shader (type : GLenum) : scenario :=
  {| sc_window := sc_window good; sc_glad := sc_glad good;
     sc_open_fails := sc_open_fails good; sc_contents := sc_contents good;
     sc_read_error := sc_read_error good;
     sc_compile := fun t => if (t =? type)%N then 0 else 1;
     sc_link := sc_link good; sc_log := sc_log good;
     sc_escape_after := sc_escape_after good; sc_close_at := sc_close_at good;
     sc_resizes := sc_resizes good |}.

Fixpoint repeat_string (s : string) (n : nat) : string :=
  match n with
  | O => ""%string
  | S n' => (s ++ repeat_string s n')%string
  end.

(** Linking fails and the driver's log is 600 characters long. *)
Definition long_log : scenario :=
  {| sc_window := sc_window good; sc_glad := sc_glad good;
     sc_open_fails := sc_open_fails good; sc_contents := sc_contents good;
     sc_read_error := sc_read_error good;
     sc_compile := sc_compile good; sc_link := 0;
     sc_log := repeat_string "error: x " 60 ++ "undefined symbol: main; link aborted" ++
               repeat_string "." 24;
     sc_escape_after := sc_escape_after good; sc_close_at := sc_close_at good;
     sc_resizes := sc_resizes good |}.

Definition bad_link : scenario :=
  {| sc_window := sc_window good; sc_glad := sc_glad good;
     sc_open_fails := sc_open_fails good; sc_contents := sc_contents good;
     sc_read_error := sc_read_error good;
     sc_compile := sc_compile good; sc_link := 0; sc_log := sc_log good;
     sc_escape_after := sc_escape_after good; sc_close_at := sc_close_at good;
     sc_resizes := sc_resizes good |}.

End Demo.

(** * Lemmas *)

(** ** Strings *)

Lemma substring_length_le (m : nat) (s : string) :
  (String.length (substring 0 m s) <= m)%nat.
Proof.
  revert s; induction m as [|m IH]; intros [|c s]; simpl; try lia.
  specialize (IH s); lia.
Qed.

Lemma info_log_written_bound (maxLength : GLsizei) (full : string) :
  0 < maxLength ->
  Z.of_nat (String.length (info_log_written maxLength full)) + 1 <= maxLength.
Proof.
  intros Hpos. unfold info_log_written.
  pose proof (substring_length_le (Z.to_nat (maxLength - 1)) full). lia.
Qed.

(** ** The render loop *)
Section RenderLoop.

Variable env : environment.
Variables (window : GLFWwindow) (shaderProgram VAO : GLuint).

Lemma deliver_resizes_spec (sizes : list (Z * Z)) (w : world) :
  deliver_resizes window sizes w =
  (Ok tt, {| trace := trace w ++ map viewport_of sizes;
             should_close := should_close w;
             resize_callback_set := resize_callback_set w |}).
Proof.
  revert w; induction sizes as [|[width height] rest IH]; intros [t c r]; simpl.
  - now rewrite app_nil_r.
  - unfold bind, framebuffer_size_callback, glViewport, call, log; simpl.
    rewrite IH; simpl. now rewrite <- app_assoc.
Qed.

Lemma glfwPollEvents_spec (w : world) :
  exists resizes,
    glfwPollEvents env window w =
    (Ok tt, {| trace := trace w ++ [GlfwPollEvents] ++ map viewport_of resizes;
               should_close :=
                 should_close w || close_requested (env_glfwPollEvents env (trace w));
               resize_callback_set := resize_callback_set w |}).
Proof.
  destruct w as [t c r]. unfold glfwPollEvents; simpl.
  destruct r.
  - exists (framebuffer_resizes (env_glfwPollEvents env t)).
    rewrite deliver_resizes_spec; simpl. now rewrite <- app_assoc.
  - exists []. simpl. reflexivity.
Qed.

Lemma processInput_spec (w : world) :
  let key := env_glfwGetKey env (trace w) window GLFW_KEY_ESCAPE in
  processInput env window w =
  (Ok tt,
   {| trace := trace w ++ GlfwGetKey window GLFW_KEY_ESCAPE key ::
                 (if key =? GLFW_PRESS then [GlfwSetWindowShouldClose window true] else []);
      should_close := (key =? GLFW_PRESS) || should_close w;
      resize_callback_set := resize_callback_set w |}).
Proof.
  destruct w as [t c r]; simpl.
  unfold processInput, bind, glfwGetKey, ask, log; simpl.
  destruct (env_glfwGetKey env t window GLFW_KEY_ESCAPE =? GLFW_PRESS); simpl.
  - unfold glfwSetWindowShouldClose; simpl. now rewrite <- app_assoc.
  - reflexivity.
Qed.

(** One iteration, from a state whose close flag is down. *)
Lemma render_loop_step (w : world) :
  should_close w = false ->
  let h := trace w ++ [GlfwWindowShouldClose window false;
                       GlClearColor 0.2%Q 0.3%Q 0.3%Q 1.0%Q;
                       GlClear GL_COLOR_BUFFER_BIT;
                       GlUseProgram shaderProgram;
                       GlBindVertexArray VAO;
                       GlDrawArrays GL_TRIANGLES 0 3] in
  let key := env_glfwGetKey env h window GLFW_KEY_ESCAPE in
  exists resizes closing w1,
    (forall fuel, render_loop env (S fuel) window shaderProgram VAO w =
                  render_loop env fuel window shaderProgram VAO w1) /\
    trace w1 = trace w ++ iteration_events window shaderProgram VAO key resizes /\
    should_close w1 = (key =? GLFW_PRESS) || closing /\
    resize_callback_set w1 = resize_callback_set w.
Proof.
  intros Hc h key. destruct w as [t c r]; simpl in Hc; subst c.
  pose (w0 := {| trace := t ++ GlfwWindowShouldClose window false ::
                   GlClearColor 0.2%Q 0.3%Q 0.3%Q 1.0%Q ::
                   GlClear GL_COLOR_BUFFER_BIT ::
                   GlUseProgram shaderProgram ::
                   GlBindVertexArray VAO ::
                   GlDrawArrays GL_TRIANGLES 0 3 ::
                   GlfwGetKey window GLFW_KEY_ESCAPE key ::
                   (if key =? GLFW_PRESS
                    then [GlfwSetWindowShouldClose window true] else []);
                 should_close := (key =? GLFW_PRESS) || false;
                 resize_callback_set := r |}).
  destruct (glfwPollEvents_spec w0) as [resizes Hp].
  assert (exists w1,
    (forall fuel, render_loop env (S fuel) window shaderProgram VAO
                    {| trace := t; should_close := false; resize_callback_set := r |} =
                  render_loop env fuel window shaderProgram VAO w1) /\
    w1 = {| trace := (trace w0 ++ [GlfwPollEvents] ++ map viewport_of resizes) ++
                     [GlfwSwapBuffers window];
            should_close := should_close w0 ||
                            close_requested (env_glfwPollEvents env (trace w0));
            resize_callback_set := r |}) as (w1 & Hrun & ->).
  { eexists. split; [|reflexivity].
    intros fuel. cbn [render_loop].
    unfold bind, glfwWindowShouldClose, glClearColor, glClear, glUseProgram,
      glBindVertexArray, glDrawArrays, glfwSwapBuffers, call, log.
    cbn [trace should_close resize_callback_set].
    rewrite processInput_spec.
    cbn [trace should_close resize_callback_set].
    rewrite <- !app_assoc. cbn [app].
    change (glfwPollEvents env window _) with (glfwPollEvents env window w0).
    rewrite Hp. cbn [trace should_close resize_callback_set].
    rewrite <- ?app_assoc. reflexivity. }
  exists resizes, (close_requested (env_glfwPollEvents env (trace w0))).
  eexists. split; [exact Hrun|].
  subst w0. cbn [trace should_close resize_callback_set].
  split; [|split; [|reflexivity]].
  - unfold iteration_events. rewrite <- ?app_assoc. cbn [app].
    rewrite <- ?app_assoc. reflexivity.
  - rewrite orb_false_r. reflexivity.
Qed.

Lemma render_loop_closed (fuel : nat) (w : world) :
  should_close w = true ->
  render_loop env (S fuel) window shaderProgram VAO w =
  (Ok true, log (GlfwWindowShouldClose window true) w).
Proof.
  intros Hc. cbn [render_loop]. unfold bind, glfwWindowShouldClose.
  rewrite Hc. reflexivity.
Qed.

(** The whole loop: it runs a sequence of iterations and, unless the fuel
    ran out, ends on the check that sees the close flag up.  An iteration
    in which escape was down is the last one. *)
Lemma render_loop_spec (fuel : nat) (w : world) :
  exists iters closed w',
    render_loop env fuel window shaderProgram VAO w = (Ok closed, w') /\
    trace w' = trace w ++ loop_events window shaderProgram VAO iters ++
               (if closed then [GlfwWindowShouldClose window true] else []) /\
    (if closed then (List.length iters < fuel)%nat else List.length iters = fuel) /\
    (should_close w = true -> iters = []) /\
    (forall pre i post, iters = pre ++ i :: post -> post <> [] -> fst i <> GLFW_PRESS) /\
    resize_callback_set w' = resize_callback_set w.
Proof.
  revert w; induction fuel as [|fuel IH]; intros w.
  - exists [], false, w. cbn. rewrite app_nil_r.
    repeat split; auto. intros [|? ?] ? ? Hnil; discriminate Hnil.
  - destruct (should_close w) eqn:Hc.
    + exists [], true, (log (GlfwWindowShouldClose window true) w).
      rewrite render_loop_closed by assumption. cbn.
      repeat split; auto; try lia. intros [|? ?] ? ? Hnil; discriminate Hnil.
    + destruct (render_loop_step w Hc) as (resizes & closing & w1 & Hrun & Ht & Hc1 & Hr1).
      destruct (IH w1) as (iters & closed & w' & Hrun' & Ht' & Hlen & Hnil & Hlast & Hr').
      set (key := env_glfwGetKey env _ window GLFW_KEY_ESCAPE) in *.
      exists ((key, resizes) :: iters), closed, w'.
      split; [now rewrite Hrun|].
      split; [rewrite Ht', Ht; unfold loop_events; cbn [flat_map fst snd];
              now rewrite <- !app_assoc|].
      split; [destruct closed; cbn [List.length]; lia|].
      split; [discriminate|].
      split; [|congruence].
      intros [|i0 pre] i post Heq Hpost; cbn [app] in Heq; inversion Heq; subst.
      * cbn [fst]. intros Hkey.
        apply Hpost, Hnil. rewrite Hc1.
        apply Z.eqb_eq in Hkey. now rewrite Hkey.
      * eapply Hlast; eauto.
Qed.

(** More fuel does not change a loop that ended. *)
Lemma render_loop_more_fuel (fuel fuel' : nat) (w w' : world) :
  render_loop env fuel window shaderProgram VAO w = (Ok true, w') ->
  (fuel <= fuel')%nat ->
  render_loop env fuel' window shaderProgram VAO w = (Ok true, w').
Proof.
  revert fuel' w; induction fuel as [|fuel IH]; intros fuel' w Hrun Hle.
  - discriminate Hrun.
  - destruct fuel' as [|fuel']; [lia|].
    destruct (should_close w) eqn:Hc.
    + rewrite render_loop_closed in * by assumption. assumption.
    + destruct (render_loop_step w Hc) as (r1 & c1 & w1 & Hrun1 & _).
      rewrite Hrun1 in Hrun. rewrite Hrun1.
      apply IH; [assumption|lia].
Qed.

End RenderLoop.

(** ** The functions called by [main] *)
Section Functions.

Variable env : environment.

Ltac normalise_log :=
  unfold log, emit; cbn [trace should_close resize_callback_set load_events];
  rewrite <- ?app_assoc; cbn [app].

Lemma emit_emit (l1 l2 : list event) (w : world) :
  emit l2 (emit l1 w) = emit (l1 ++ l2) w.
Proof. unfold emit; simpl. now rewrite app_assoc. Qed.

Lemma log_emit (e : event) (w : world) : log e w = emit [e] w.
Proof. reflexivity. Qed.

(** The three ways through [loadShaderSourceFromFile]. *)
Lemma load_open_failed (path : string) (w : world) (e : ios_failure) :
  env_open env (trace w) path = Some e ->
  loadShaderSourceFromFile env path w =
  (Ok ""%string, emit (load_events path (OpenFailed e)) w).
Proof.
  intros Ho.
  unfold loadShaderSourceFromFile, ifstream_open, stream_write.
  unfold try_catch, bind, ask, call, throw, ret.
  cbv beta zeta. rewrite Ho.
  rewrite !log_emit, emit_emit. reflexivity.
Qed.

Lemma load_close_failed (path : string) (w : world) (e : ios_failure) :
  env_open env (trace w) path = None ->
  let r := env_rdbuf env (trace w ++ [IfstreamOpen path None]) path in
  env_close env (trace w ++ [IfstreamOpen path None;
                             IfstreamRdbuf path (delivered r) (read_error r)]) path
    = Some e ->
  loadShaderSourceFromFile env path w =
  (Ok ""%string, emit (load_events path (CloseFailed r e)) w).
Proof.
  intros Ho r Hc.
  unfold loadShaderSourceFromFile, ifstream_open, ifstream_rdbuf, ifstream_close,
    stream_write.
  unfold try_catch, bind, ask, call, throw, ret.
  cbv beta zeta. rewrite Ho. normalise_log.
  fold r. rewrite Hc. normalise_log.
  reflexivity.
Qed.

Lemma load_ok (path : string) (w : world) :
  env_open env (trace w) path = None ->
  let r := env_rdbuf env (trace w ++ [IfstreamOpen path None]) path in
  env_close env (trace w ++ [IfstreamOpen path None;
                             IfstreamRdbuf path (delivered r) (read_error r)]) path
    = None ->
  loadShaderSourceFromFile env path w =
  (Ok (delivered r), emit (load_events path (Loaded r)) w).
Proof.
  intros Ho r Hc.
  unfold loadShaderSourceFromFile, ifstream_open, ifstream_rdbuf, ifstream_close,
    stream_write.
  unfold try_catch, bind, ask, call, throw, ret.
  cbv beta zeta. rewrite Ho. normalise_log.
  fold r. rewrite Hc. normalise_log.
  reflexivity.
Qed.

Lemma loadShaderSourceFromFile_spec (path : string) (w : world) :
  exists o,
    loadShaderSourceFromFile env path w =
    (Ok (load_result o), emit (load_events path o) w).
Proof.
  destruct (env_open env (trace w) path) as [e|] eqn:Ho.
  - exists (OpenFailed e). now apply load_open_failed.
  - set (r := env_rdbuf env (trace w ++ [IfstreamOpen path None]) path).
    destruct (env_close env
                (trace w ++ [IfstreamOpen path None;
                             IfstreamRdbuf path (delivered r) (read_error r)]) path)
      as [e|] eqn:Hc.
    + exists (CloseFailed r e). now apply load_close_failed.
    + exists (Loaded r). now apply load_ok.
Qed.

(** The two ways through [compileShader]. *)
Lemma compileShader_failed (type : GLenum) (source : string) (w : world) :
  let shader := env_glCreateShader env (trace w) type in
  let h := trace w ++ [GlCreateShader type shader; GlShaderSource shader 1 source;
                       GlCompileShader shader] in
  env_glGetShaderiv env h shader GL_COMPILE_STATUS = 0 ->
  let full := env_shaderInfoLog env
                (h ++ [GlGetShaderiv shader GL_COMPILE_STATUS 0]) shader in
  compileShader env type source w =
  (Ok 0%N, emit (compile_events type source shader (CompileFailed full)) w).
Proof.
  intros shader h Hs full.
  unfold compileShader, glCreateShader, glShaderSource, glCompileShader,
    glGetShaderiv, glGetShaderInfoLog, stream_write, glDeleteShader.
  unfold bind, ask, call, ret, log.
  cbn [trace should_close resize_callback_set].
  fold shader. rewrite <- ?app_assoc. cbn [app]. fold h. rewrite Hs.
  cbn [Z.eqb trace should_close resize_callback_set].
  unfold emit, compile_events, compile_report, shader_kind_tag.
  rewrite <- ?app_assoc. cbn [app]. subst full h.
  rewrite <- ?app_assoc. reflexivity.
Qed.

Lemma compileShader_compiled (type : GLenum) (source : string) (w : world) :
  let shader := env_glCreateShader env (trace w) type in
  let h := trace w ++ [GlCreateShader type shader; GlShaderSource shader 1 source;
                       GlCompileShader shader] in
  let status := env_glGetShaderiv env h shader GL_COMPILE_STATUS in
  status <> 0 ->
  compileShader env type source w =
  (Ok shader, emit (compile_events type source shader (Compiled status)) w).
Proof.
  intros shader h status Hs.
  unfold compileShader, glCreateShader, glShaderSource, glCompileShader, glGetShaderiv.
  unfold bind, ask, call, ret, log.
  cbn [trace should_close resize_callback_set].
  fold shader. rewrite <- ?app_assoc. cbn [app]. fold h. fold status.
  apply Z.eqb_neq in Hs. rewrite Hs.
  unfold emit, compile_events. rewrite <- ?app_assoc. reflexivity.
Qed.

Lemma compileShader_spec (type : GLenum) (source : string) (w : world) :
  exists o,
    compile_outcome_ok o /\
    compileShader env type source w =
    (Ok (compile_result (env_glCreateShader env (trace w) type) o),
     emit (compile_events type source (env_glCreateShader env (trace w) type) o) w).
Proof.
  set (shader := env_glCreateShader env (trace w) type).
  set (h := trace w ++ [GlCreateShader type shader; GlShaderSource shader 1 source;
                        GlCompileShader shader]).
  destruct (Z.eq_dec (env_glGetShaderiv env h shader GL_COMPILE_STATUS) 0) as [Hs|Hs].
  - eexists (CompileFailed _). split; [exact I|].
    now apply compileShader_failed.
  - eexists (Compiled _). split; [exact Hs|].
    now apply compileShader_compiled.
Qed.

End Functions.

(** ** Walking through [main] *)
Section Stepping.

Variable env : environment.
Variables (A B : Type) (P : result B * world -> Prop).

Lemma step_call (e : event) (k : unit -> M B) (w : world) :
  P (k tt (emit [e] w)) -> P (bind (call e) k w).
Proof. intros H; exact H. Qed.

Lemma step_ask (f : history -> A) (e : A -> event) (k : A -> M B) (w : world) :
  (forall a, P (k a (emit [e a] w))) -> P (bind (ask f e) k w).
Proof. intros H; apply H. Qed.

Lemma step_info_log (f : history -> string) (maxLength : GLsizei)
  (e : string -> event) (k : string -> M B) (w : world) :
  (forall full, P (k (info_log_written maxLength full)
                     (emit [e (info_log_written maxLength full)] w))) ->
  P (bind (ask (fun h => info_log_written maxLength (f h)) e) k w).
Proof. intros H; apply H. Qed.

Lemma step_callback (window : GLFWwindow) (k : unit -> M B) (w : world) :
  P (k tt {| trace := trace w ++ [GlfwSetFramebufferSizeCallback window];
             should_close := should_close w;
             resize_callback_set := true |}) ->
  P (bind (glfwSetFramebufferSizeCallback window) k w).
Proof. intros H; exact H. Qed.

Lemma step_load (path : string) (k : string -> M B) (w : world) :
  (forall o, P (k (load_result o) (emit (load_events path o) w))) ->
  P (bind (loadShaderSourceFromFile env path) k w).
Proof.
  intros H. destruct (loadShaderSourceFromFile_spec env path w) as [o Ho].
  unfold bind. rewrite Ho. apply H.
Qed.

Lemma step_compile (type : GLenum) (source : string) (k : GLuint -> M B) (w : world) :
  (forall shader o, compile_outcome_ok o ->
     P (k (compile_result shader o) (emit (compile_events type source shader o) w))) ->
  P (bind (compileShader env type source) k w).
Proof.
  intros H. destruct (compileShader_spec env type source w) as (o & Hok & Ho).
  unfold bind. rewrite Ho. now apply H.
Qed.

Lemma step_loop (fuel : nat) (window : GLFWwindow) (shaderProgram VAO : GLuint)
  (k : bool -> M B) (w : world) :
  (forall iters (closed : bool) w',
     trace w' = trace w ++ loop_events window shaderProgram VAO iters ++
                (if closed then [GlfwWindowShouldClose window true] else []) ->
     (if closed then (List.length iters < fuel)%nat else List.length iters = fuel) ->
     (forall pre i post, iters = pre ++ i :: post -> post <> [] -> fst i <> GLFW_PRESS) ->
     P (k closed w')) ->
  P (bind (render_loop env fuel window shaderProgram VAO) k w).
Proof.
  intros H.
  destruct (render_loop_spec env window shaderProgram VAO fuel w)
    as (iters & closed & w' & Hrun & Ht & Hlen & _ & Hlast & _).
  unfold bind. rewrite Hrun. now apply (H iters).
Qed.

End Stepping.

Lemma main_path_eq (t t' : history) (r : option Z) :
  main_path t' r -> t = t' -> main_path t r.
Proof. now intros H ->. Qed.

Lemma draws_app (t1 t2 : history) : draws (t1 ++ t2) = (draws t1 + draws t2)%nat.
Proof. unfold draws. now rewrite filter_app, length_app. Qed.

Lemma draws_viewports (resizes : list (Z * Z)) : draws (map viewport_of resizes) = 0%nat.
Proof. induction resizes as [|s rest IH]; [reflexivity|exact IH]. Qed.

Lemma draws_iteration (window : GLFWwindow) (shaderProgram VAO : GLuint)
  (key : Z) (resizes : list (Z * Z)) :
  draws (iteration_events window shaderProgram VAO key resizes) = 1%nat.
Proof.
  unfold iteration_events. rewrite !draws_app, draws_viewports.
  destruct (key =? GLFW_PRESS); reflexivity.
Qed.

Lemma draws_loop (window : GLFWwindow) (shaderProgram VAO : GLuint)
  (iters : list (Z * list (Z * Z))) :
  draws (loop_events window shaderProgram VAO iters) = List.length iters.
Proof.
  induction iters as [|i iters IH]; [reflexivity|].
  unfold loop_events in *. cbn [flat_map List.length].
  now rewrite draws_app, draws_iteration, IH.
Qed.

Ltac step :=
  cbv beta;
  cbn [emit trace should_close resize_callback_set app];
  lazymatch goal with
  | |- ?Q (bind (loadShaderSourceFromFile _ _) _ _) => apply (@step_load _ _ Q); intros ?o
  | |- ?Q (bind (compileShader _ _ _) _ _) => apply (@step_compile _ _ Q); intros ?shader ?o ?Hok
  | |- ?Q (bind (glfwSetFramebufferSizeCallback _) _ _) => apply (@step_callback _ Q)
  | |- ?Q (bind (render_loop _ _ _ _ _) _ _) =>
      apply step_loop; intros ?iters ?closed ?w' ?Htrace ?Hlen ?Hlast
  | |- ?Q (bind (glGetProgramInfoLog _ _ _ _) _ _) => apply (@step_info_log _ Q); intros ?full
  | |- ?Q (bind (glfwInit) _ _) => apply (@step_call _ Q)
  | |- ?Q (bind (glfwWindowHint _ _) _ _) => apply (@step_call _ Q)
  | |- ?Q (bind (glfwTerminate) _ _) => apply (@step_call _ Q)
  | |- ?Q (bind (glfwMakeContextCurrent _) _ _) => apply (@step_call _ Q)
  | |- ?Q (bind (glViewport _ _ _ _) _ _) => apply (@step_call _ Q)
  | |- ?Q (bind (stream_write _ _) _ _) => apply (@step_call _ Q)
  | |- ?Q (bind (glDeleteShader _) _ _) => apply (@step_call _ Q)
  | |- ?Q (bind (glAttachShader _ _) _ _) => apply (@step_call _ Q)
  | |- ?Q (bind (glLinkProgram _) _ _) => apply (@step_call _ Q)
  | |- ?Q (bind (glDeleteProgram _) _ _) => apply (@step_call _ Q)
  | |- ?Q (bind (glBindVertexArray _) _ _) => apply (@step_call _ Q)
  | |- ?Q (bind (glBindBuffer _ _) _ _) => apply (@step_call _ Q)
  | |- ?Q (bind (glBufferData _ _ _ _) _ _) => apply (@step_call _ Q)
  | |- ?Q (bind (glVertexAttribPointer _ _ _ _ _ _) _ _) => apply (@step_call _ Q)
  | |- ?Q (bind (glEnableVertexAttribArray _) _ _) => apply (@step_call _ Q)
  | |- ?Q (bind (glDeleteVertexArrays _ _) _ _) => apply (@step_call _ Q)
  | |- ?Q (bind (glDeleteBuffers _ _) _ _) => apply (@step_call _ Q)
  | |- ?Q (bind (glfwCreateWindow _ _ _ _) _ _) => apply (@step_ask _ _ Q); intros ?window
  | |- ?Q (bind (gladLoadGLLoader _) _ _) => apply (@step_ask _ _ Q); intros ?loaded
  | |- ?Q (bind (glCreateProgram _) _ _) => apply (@step_ask _ _ Q); intros ?shaderProgram
  | |- ?Q (bind (glGetProgramiv _ _ _) _ _) => apply (@step_ask _ _ Q); intros ?status
  | |- ?Q (bind (glGenVertexArrays _ _) _ _) => apply (@step_ask _ _ Q); intros ?VAO
  | |- ?Q (bind (glGenBuffers _ _) _ _) => apply (@step_ask _ _ Q); intros ?VBO
  | |- ?Q ((if ?c then _ else _) _) => destruct c eqn:?
  end.

Lemma draws_load (path : string) (o : load_outcome) : draws (load_events path o) = 0%nat.
Proof. destruct o; reflexivity. Qed.

Lemma draws_compile (type : GLenum) (source : string) (shader : GLuint)
  (o : compile_outcome) :
  draws (compile_events type source shader o) = 0%nat.
Proof. destruct o; reflexivity. Qed.

Lemma load_result_nonempty (o : load_outcome) :
  (load_result o =? "")%string = false ->
  exists r, o = Loaded r /\ delivered r <> ""%string.
Proof.
  destruct o as [e|r e|r]; cbn; try discriminate.
  intros H. exists r. split; [reflexivity|]. now apply String.eqb_neq.
Qed.

Lemma compile_result_nonzero (shader : GLuint) (o : compile_outcome) :
  compile_outcome_ok o ->
  (compile_result shader o =? 0)%N = false ->
  exists status, o = Compiled status /\ status <> 0 /\ shader <> 0%N.
Proof.
  destruct o as [full|status]; cbn; try discriminate.
  intros Hok H. exists status. repeat split; [assumption|]. now apply N.eqb_neq.
Qed.

Ltac conditions :=
  repeat match goal with
  | H : (_ =? _)%N = true |- _ => apply N.eqb_eq in H
  | H : (_ =? _)%N = false |- _ => apply N.eqb_neq in H
  | H : (_ =? _)%Z = true |- _ => apply Z.eqb_eq in H
  | H : (_ =? _)%Z = false |- _ => apply Z.eqb_neq in H
  | H : (_ =? _)%string = true |- _ => apply String.eqb_eq in H
  end.

Lemma draws_cons (e : event) (t : history) :
  draws (e :: t) = ((if is_draw e then 1 else 0) + draws t)%nat.
Proof. unfold draws; cbn [filter]. now destruct (is_draw e). Qed.

Ltac count_draws :=
  repeat (rewrite ?draws_cons, ?draws_app, ?draws_load, ?draws_compile, ?draws_loop);
  cbn [is_draw draws filter List.length Nat.add]; try lia.

Ltac loaded_ok :=
  match goal with
  | H : (load_result ?o =? "")%string = false |- _ =>
      apply load_result_nonempty in H as (? & -> & ?); cbn [load_result]
  end.

Ltac compiled_ok :=
  match goal with
  | Hok : compile_outcome_ok ?o, H : (compile_result _ ?o =? 0)%N = false |- _ =>
      destruct (@compile_result_nonzero _ _ Hok H) as (? & -> & ? & ?);
      clear H Hok; cbn [compile_result]
  end.

Ltac leaf :=
  conditions; subst;
  unfold follows_path, ret; eexists _, _; split; [reflexivity|];
  cbn [emit trace should_close resize_callback_set app].

Ltac same_log :=
  unfold shaders_events, sources_events, setup_events, startup_events;
  rewrite <- ?app_assoc; reflexivity.

(** Every run of [main] follows one of the paths. *)
Lemma main_follows_path (env : environment) (fuel : nat) :
  follows_path fuel (run env fuel).
Proof.
  unfold run, main, initial_world.
  do 5 step. step.
  { do 2 step. leaf. split; [exact path_no_window|count_draws]. }
  do 3 step.
  { do 2 step. leaf. split; [now apply path_no_glad|count_draws]. }
  do 3 step. step.
  { step. leaf. split; [|count_draws].
    eapply main_path_eq; [eapply path_no_vertex_source|same_log]; eassumption. }
  loaded_ok. step. step.
  { step. leaf. split; [|count_draws].
    eapply main_path_eq; [eapply path_no_fragment_source|same_log]; eassumption. }
  loaded_ok. step. step.
  { step. leaf. split; [|count_draws].
    eapply main_path_eq; [eapply path_no_vertex_shader|same_log]; eassumption. }
  compiled_ok. step. step.
  { do 2 step. leaf. split; [|count_draws].
    eapply main_path_eq; [eapply path_no_fragment_shader|same_log]; eassumption. }
  compiled_ok. do 6 step.
  { do 6 step. leaf. split; [|count_draws].
    eapply main_path_eq; [eapply path_link_failed|same_log]; eassumption. }
  do 12 step. step.
  { do 4 step. leaf. rewrite Htrace.
    cbn [emit trace should_close resize_callback_set app].
    rewrite <- ?app_assoc.
    split; [|count_draws].
    eapply main_path_eq;
      [eapply path_rendering with (closed := true)
      |unfold link_events, vertex_events, shutdown_events; same_log]; eassumption. }
  leaf. rewrite Htrace.
  cbn [emit trace should_close resize_callback_set app].
  rewrite <- ?app_assoc.
  split; [|count_draws].
  eapply main_path_eq;
    [eapply path_rendering with (closed := false)
    |unfold link_events, vertex_events, shutdown_events; same_log]; eassumption.
Qed.

(** ** Facts about the paths *)

Lemma run_path (env : environment) (fuel : nat) :
  exists code w, run env fuel = (Ok code, w) /\ main_path (trace w) code.
Proof.
  destruct (main_follows_path env fuel) as (code & w & Hrun & Hpath & _).
  now exists code, w.
Qed.

Lemma In_iteration_events (window : GLFWwindow) (shaderProgram VAO : GLuint)
  (key : Z) (resizes : list (Z * Z)) (e : event) :
  In e (iteration_events window shaderProgram VAO key resizes) ->
  is_frame_call e = true \/ e = GlBindVertexArray VAO \/ exists s, e = viewport_of s.
Proof.
  unfold iteration_events. rewrite !in_app_iff.
  intros [H|[H|[H|[H|H]]]].
  - cbn [In] in H.
    repeat (destruct H as [H|H]; [subst e; auto|]). destruct H.
  - destruct (key =? GLFW_PRESS); cbn [In] in H; [|destruct H].
    destruct H as [H|[]]; subst e; auto.
  - destruct H as [H|[]]; subst e; auto.
  - apply in_map_iff in H as (s & <- & _). right; right. now exists s.
  - destruct H as [H|[]]; subst e; auto.
Qed.

Lemma In_loop_events (window : GLFWwindow) (shaderProgram VAO : GLuint)
  (iters : list (Z * list (Z * Z))) (e : event) :
  In e (loop_events window shaderProgram VAO iters) ->
  is_frame_call e = true \/ e = GlBindVertexArray VAO \/ exists s, e = viewport_of s.
Proof.
  unfold loop_events. rewrite in_flat_map. intros (i & _ & H).
  eapply In_iteration_events; eassumption.
Qed.

(** Splitting a membership in an explicit log into its cases. *)
Ltac unfold_stages :=
  unfold shaders_events, sources_events, setup_events, startup_events, link_events,
    link_failure_events, vertex_events, shutdown_events, compile_events, load_events,
    compile_report, load_report, link_report, no_window_report, no_glad_report in *.

Ltac split_in H :=
  repeat match type of H with
  | In _ (_ ++ _) => apply in_app_or in H; destruct H as [H|H]
  | In _ (_ :: _) => destruct H as [H|H]
  | In _ [] => destruct H
  | In _ (if ?c then _ else _) => destruct c
  | In _ (match ?o with CompileFailed _ => _ | Compiled _ => _ end) => destruct o
  | In _ (match ?o with OpenFailed _ => _ | CloseFailed _ _ => _ | Loaded _ => _ end) =>
      destruct o
  | In _ (loop_events _ _ _ _) =>
      apply In_loop_events in H; destruct H as [H|[H|[? H]]];
      [cbn in H|idtac|unfold viewport_of in H]
  end.

Lemma filter_nil_iff {T} (p : T -> bool) (l : list T) :
  filter p l = [] <-> forall x, In x l -> p x = false.
Proof.
  split.
  - intros Hf x Hin. destruct (p x) eqn:Hp; [|reflexivity].
    assert (In x (filter p l)) as Hx by (apply filter_In; auto).
    rewrite Hf in Hx. destruct Hx.
  - induction l as [|a l IH]; intros H; [reflexivity|]. cbn.
    rewrite (H a (or_introl eq_refl)). apply IH. intros x Hx. apply H. now right.
Qed.

Lemma last_call_app (t : history) (e : event) : last_call (t ++ [e]) = Some e.
Proof. unfold last_call. rewrite map_app. cbn. apply last_last. Qed.

Lemma last_call_cons (e : event) (t : history) :
  t <> [] -> last_call (e :: t) = last_call t.
Proof.
  unfold last_call. destruct t as [|e' t]; [congruence|]. reflexivity.
Qed.

Lemma created_app (t1 t2 : history) : created (t1 ++ t2) = created t1 ++ created t2.
Proof. unfold created. apply flat_map_app. Qed.

Lemma delete_calls_app (t1 t2 : history) :
  delete_calls (t1 ++ t2) = delete_calls t1 ++ delete_calls t2.
Proof. unfold delete_calls. apply flat_map_app. Qed.

Lemma created_In (t : history) (o : object) :
  In o (created t) <-> exists e, In e t /\ creates e = Some o.
Proof.
  unfold created. rewrite in_flat_map. split; intros (e & He & H); exists e; split; auto.
  - destruct (creates e); cbn in H; [destruct H as [->|[]]; reflexivity|destruct H].
  - rewrite H. now left.
Qed.

Lemma delete_calls_In (t : history) (o : object) :
  In o (delete_calls t) <-> exists e, In e t /\ deletes e = Some o.
Proof.
  unfold delete_calls. rewrite in_flat_map. split; intros (e & He & H); exists e; split; auto.
  - destruct (deletes e); cbn in H; [destruct H as [->|[]]; reflexivity|destruct H].
  - rewrite H. now left.
Qed.

Lemma info_log_written_short (full : string) :
  Z.of_nat (String.length (info_log_written INFO_LOG_SIZE full)) < INFO_LOG_SIZE.
Proof.
  pose proof (@info_log_written_bound INFO_LOG_SIZE full eq_refl). lia.
Qed.

(** * The claims *)

(** C10: when compilation fails, the kind written in the report of
    [compileShader] is "VERTEX" exactly when the type argument is
    GL_VERTEX_SHADER and "FRAGMENT" for every other type value, whatever
    shader kind that value stands for. *)
Theorem compileShader_kind_tag (env : environment) (type : GLenum) (source : string)
  (w : world) :
  compile_status env type source w = 0 ->
  exists kind infoLog,
    compileShader env type source w =
    (Ok 0%N,
     emit [GlCreateShader type (created_shader env type w);
           GlShaderSource (created_shader env type w) 1 source;
           GlCompileShader (created_shader env type w);
           GlGetShaderiv (created_shader env type w) GL_COMPILE_STATUS 0;
           GlGetShaderInfoLog (created_shader env type w) INFO_LOG_SIZE INFO_LOG_SIZE
             infoLog;
           StreamWrite cerr ["ERROR::SHADER::"%string; kind;
                             ("::COMPILATION_FAILED" ++ nl)%string; infoLog; endl];
           GlDeleteShader (created_shader env type w)] w) /\
    (kind = "VERTEX"%string <-> type = GL_VERTEX_SHADER) /\
    (type <> GL_VERTEX_SHADER -> kind = "FRAGMENT"%string).
Proof.
  intros Hs.
  exists (shader_kind_tag type). eexists. split.
  - apply compileShader_failed. exact Hs.
  - unfold shader_kind_tag. destruct (N.eqb_spec type GL_VERTEX_SHADER) as [->|Hne].
    + split; [tauto|congruence].
    + split; [split; [discriminate|congruence]|reflexivity].
Qed.

(** A geometry shader that does not compile is reported as FRAGMENT. *)
Lemma compileShader_kind_tag_witness :
  compile_status (Demo.env (Demo.bad_shader GL_GEOMETRY_SHADER))
    GL_GEOMETRY_SHADER "void main() { }" initial_world = 0 /\
  exists infoLog,
    In (StreamWrite cerr ["ERROR::SHADER::"%string; "FRAGMENT"%string;
                          ("::COMPILATION_FAILED" ++ nl)%string; infoLog; endl])
       (trace (snd (compileShader (Demo.env (Demo.bad_shader GL_GEOMETRY_SHADER))
                      GL_GEOMETRY_SHADER "void main() { }" initial_world))).
Proof.
  assert (H : compile_status (Demo.env (Demo.bad_shader GL_GEOMETRY_SHADER))
                GL_GEOMETRY_SHADER "void main() { }" initial_world = 0)
    by reflexivity.
  split; [exact H|].
  destruct (compileShader_kind_tag (Demo.env (Demo.bad_shader GL_GEOMETRY_SHADER))
              GL_GEOMETRY_SHADER "void main() { }" initial_world H)
    as (kind & infoLog & Hrun & _ & Hother).
  exists infoLog. rewrite Hrun, Hother by discriminate.
  cbn. do 5 right. left. reflexivity.
Defined.

Ltac find_in :=
  lazymatch goal with
  | |- In _ _ => cbn; repeat first [left; reflexivity | right]
  end.

(** C2: when the compile status is 0, [compileShader] fetches the driver's
    log into its 512-character buffer, writes the report tagged with the
    shader kind, deletes the shader and returns 0; a run of [main] that
    saw a compile status of 0 returns -1 without any call that creates,
    attaches to or links a program, and has deleted every shader it
    created, the vertex shader included. *)
Theorem compile_failure_aborts (env : environment) (type : GLenum) (source : string)
  (w : world) (fuel : nat) (shader : GLuint) :
  (compile_status env type source w = 0 ->
   exists infoLog,
     Z.of_nat (String.length infoLog) < INFO_LOG_SIZE /\
     compileShader env type source w =
     (Ok 0%N,
      emit [GlCreateShader type (created_shader env type w);
            GlShaderSource (created_shader env type w) 1 source;
            GlCompileShader (created_shader env type w);
            GlGetShaderiv (created_shader env type w) GL_COMPILE_STATUS 0;
            GlGetShaderInfoLog (created_shader env type w) INFO_LOG_SIZE INFO_LOG_SIZE
              infoLog;
            StreamWrite cerr ["ERROR::SHADER::"%string; shader_kind_tag type;
                              ("::COMPILATION_FAILED" ++ nl)%string; infoLog; endl];
            GlDeleteShader (created_shader env type w)] w)) /\
  (In (GlGetShaderiv shader GL_COMPILE_STATUS 0) (trace (snd (run env fuel))) ->
   fst (run env fuel) = Ok (Some (-1)) /\
   filter is_link_call (trace (snd (run env fuel))) = [] /\
   In (GlDeleteShader shader) (trace (snd (run env fuel))) /\
   (forall o, In o (created (trace (snd (run env fuel)))) ->
              In o (delete_calls (trace (snd (run env fuel))))) /\
   (forall vertexShader,
      In (GlCreateShader GL_VERTEX_SHADER vertexShader) (trace (snd (run env fuel))) ->
      In (GlDeleteShader vertexShader) (trace (snd (run env fuel)))) /\
   last_call (trace (snd (run env fuel))) = Some GlfwTerminate).
Proof.
  split.
  - intros Hs. eexists. split; [apply info_log_written_short|].
    apply compileShader_failed. exact Hs.
  - destruct (run_path env fuel) as (code & w0 & -> & Hpath). cbn [fst snd].
    generalize dependent (trace w0). intros t Hpath Hin.
    destruct Hpath; unfold_stages; split_in Hin; try discriminate Hin;
      inversion Hin; subst; try contradiction; try (cbn in *; contradiction);
      clear Hin; cbn [app].
    + repeat split; try reflexivity; try find_in.
      * cbn. destruct (shader =? 0)%N; cbn; intros obj Ho; [destruct Ho|].
        destruct Ho as [<-|[]]. now left.
      * intros vs Hv. split_in Hv; try discriminate Hv.
        inversion Hv; subst. find_in.
    + repeat split; try reflexivity; try find_in.
      * cbn. rewrite (proj2 (N.eqb_neq _ _)) by assumption.
        destruct (shader =? 0)%N; cbn; intros obj Ho.
        -- destruct Ho as [<-|[]]. auto.
        -- destruct Ho as [<-|[<-|[]]]; auto.
      * intros vs Hv. split_in Hv; try discriminate Hv.
        inversion Hv; subst. find_in.
Qed.

(** A fragment shader that does not compile. *)
Lemma compile_failure_aborts_witness :
  (compile_status (Demo.env (Demo.bad_shader GL_FRAGMENT_SHADER))
     GL_FRAGMENT_SHADER "void main() { }" initial_world = 0 /\
   In (GlGetShaderiv 2%N GL_COMPILE_STATUS 0)
      (trace (snd (run (Demo.env (Demo.bad_shader GL_FRAGMENT_SHADER)) 3)))) /\
  fst (run (Demo.env (Demo.bad_shader GL_FRAGMENT_SHADER)) 3) = Ok (Some (-1)) /\
  In (GlDeleteShader 1%N)
     (trace (snd (run (Demo.env (Demo.bad_shader GL_FRAGMENT_SHADER)) 3))).
Proof.
  assert (H1 : compile_status (Demo.env (Demo.bad_shader GL_FRAGMENT_SHADER))
                 GL_FRAGMENT_SHADER "void main() { }" initial_world = 0)
    by reflexivity.
  assert (H2 : In (GlGetShaderiv 2%N GL_COMPILE_STATUS 0)
                  (trace (snd (run (Demo.env (Demo.bad_shader GL_FRAGMENT_SHADER)) 3))))
    by (vm_compute; repeat first [left; reflexivity | right]).
  split; [exact (conj H1 H2)|].
  destruct (compile_failure_aborts (Demo.env (Demo.bad_shader GL_FRAGMENT_SHADER))
              GL_FRAGMENT_SHADER "void main() { }" initial_world 3 2%N)
    as [_ Hmain].
  destruct (Hmain H2) as (Hcode & _ & _ & _ & Hvertex & _).
  split; [exact Hcode|].
  apply Hvertex. vm_compute. repeat first [left; reflexivity | right].
Defined.




(** A failed open or close is reported with the path and the reason, the
    empty string is returned, and [main] returns -1 without a program, with
    [glfwTerminate] as its last call. *)
Lemma open_failure_reported (env : environment) (path : string) (w : world)
  (e : ios_failure) (fuel : nat) :
  (open_failure env path w = Some e ->
   loadShaderSourceFromFile env path w =
   (Ok ""%string,
    emit [IfstreamOpen path (Some e);
          StreamWrite cerr ["ERROR::SHADER::FILE_NOT_SUCCESSFULLY_READ: "%string;
                            path; nl; what e; endl]] w)) /\
  (In (IfstreamOpen path (Some e)) (trace (snd (run env fuel))) \/
   In (IfstreamClose path (Some e)) (trace (snd (run env fuel))) ->
   fst (run env fuel) = Ok (Some (-1)) /\
   In (StreamWrite cerr ["ERROR::SHADER::FILE_NOT_SUCCESSFULLY_READ: "%string;
                         path; nl; what e; endl]) (trace (snd (run env fuel))) /\
   filter is_link_call (trace (snd (run env fuel))) = [] /\
   created (trace (snd (run env fuel))) = [] /\
   last_call (trace (snd (run env fuel))) = Some GlfwTerminate).
Proof.
  split.
  - intros Hopen. now rewrite (load_open_failed env path w Hopen).
  - destruct (run_path env fuel) as (code & w0 & -> & Hpath). cbn [fst snd].
    generalize dependent (trace w0). intros t Hpath [Hin|Hin].
    all: destruct Hpath; unfold_stages; split_in Hin; try discriminate Hin;
      inversion Hin; subst; try contradiction; try (cbn in *; congruence);
      clear Hin; cbn [app].
    all: repeat split; try reflexivity; find_in.
Qed.

(** C4, where the code departs from it: when the file opens and closes but
    the copy of its contents stops on a read error, [loadShaderSourceFromFile]
    returns the characters delivered so far and writes nothing to standard
    error. *)
Theorem read_error_not_reported (env : environment) (path : string) (w : world) :
  open_failure env path w = None ->
  read_error (file_read env path w) = true ->
  close_failure env path w = None ->
  loadShaderSourceFromFile env path w =
  (Ok (delivered (file_read env path w)),
   emit [IfstreamOpen path None;
         IfstreamRdbuf path (delivered (file_read env path w)) true;
         IfstreamClose path None] w).
Proof.
  intros Hopen Herr Hclose.
  rewrite (load_ok env path w Hopen Hclose).
  unfold file_read in Herr. cbn [load_events]. now rewrite Herr.
Qed.

(** A vertex shader file that cannot be read at all, and one whose read
    stops after a complete shader: the first run ends without a word on
    standard error, the second goes on to create a program. *)
Lemma read_error_not_reported_witness :
  (open_failure (Demo.env (Demo.unreadable "vshader.vert" "")) "vshader.vert"
     initial_world = None /\
   read_error (file_read (Demo.env (Demo.unreadable "vshader.vert" "")) "vshader.vert"
                 initial_world) = true /\
   close_failure (Demo.env (Demo.unreadable "vshader.vert" "")) "vshader.vert"
     initial_world = None) /\
  loadShaderSourceFromFile (Demo.env (Demo.unreadable "vshader.vert" "")) "vshader.vert"
    initial_world =
  (Ok ""%string,
   emit [IfstreamOpen "vshader.vert" None;
         IfstreamRdbuf "vshader.vert" ""%string true;
         IfstreamClose "vshader.vert" None] initial_world) /\
  fst (run (Demo.env (Demo.unreadable "vshader.vert" "")) 3) = Ok (Some (-1)) /\
  filter is_report (trace (snd (run (Demo.env (Demo.unreadable "vshader.vert" "")) 3)))
    = [] /\
  filter is_link_call
    (trace (snd (run (Demo.env (Demo.unreadable "vshader.vert" "void main() { }")) 3)))
    <> [].
Proof.
  pose (env := Demo.env (Demo.unreadable "vshader.vert" "")).
  assert (H1 : open_failure env "vshader.vert" initial_world = None) by reflexivity.
  assert (H2 : read_error (file_read env "vshader.vert" initial_world) = true)
    by reflexivity.
  assert (H3 : close_failure env "vshader.vert" initial_world = None) by reflexivity.
  split; [exact (conj H1 (conj H2 H3))|].
  split; [exact (read_error_not_reported env "vshader.vert" initial_world H1 H2 H3)|].
  split; [reflexivity|]. split; [reflexivity|].
  vm_compute. discriminate.
Defined.

Ltac choose_report_form :=
  unfold report_form;
  first
    [ left; reflexivity
    | right; left; reflexivity
    | right; right; left; eexists _, _; reflexivity
    | right; right; right; left; eexists _, _;
      (split; [|split; [|reflexivity]]);
      [first [left; reflexivity | right; reflexivity] | apply info_log_written_short]
    | right; right; right; right; eexists;
      (split; [|reflexivity]); apply info_log_written_short ].

(** C7: everything [main] writes goes to standard error and has one of the
    five fixed forms; the diagnostic of a compile or link report is what
    the driver left in a buffer of INFO_LOG_SIZE = 512 characters, which was
    passed with that same size as its limit, so the text is shorter than
    512 characters and, with its terminator, fits the buffer. *)
Theorem reports_are_tagged_and_bounded (env : environment) (fuel : nat) :
  INFO_LOG_SIZE = 512 /\
  (forall os pieces,
      In (StreamWrite os pieces) (trace (snd (run env fuel))) ->
      os = cerr /\ report_form pieces) /\
  (forall shader maxLength capacity written,
      In (GlGetShaderInfoLog shader maxLength capacity written)
         (trace (snd (run env fuel))) ->
      maxLength = INFO_LOG_SIZE /\ capacity = INFO_LOG_SIZE /\
      Z.of_nat (String.length written) + 1 <= capacity /\
      exists kind,
        In (StreamWrite cerr ["ERROR::SHADER::"%string; kind;
                              ("::COMPILATION_FAILED" ++ nl)%string; written; endl])
           (trace (snd (run env fuel)))) /\
  (forall program maxLength capacity written,
      In (GlGetProgramInfoLog program maxLength capacity written)
         (trace (snd (run env fuel))) ->
      maxLength = INFO_LOG_SIZE /\ capacity = INFO_LOG_SIZE /\
      Z.of_nat (String.length written) + 1 <= capacity /\
      In (StreamWrite cerr [("ERROR::SHADER::PROGRAM::LINKING_FAILED" ++ nl)%string;
                            written; endl])
         (trace (snd (run env fuel)))).
Proof.
  split; [reflexivity|].
  destruct (run_path env fuel) as (code & w0 & -> & Hpath). cbn [fst snd].
  generalize dependent (trace w0). intros t Hpath.
  split; [|split].
  - intros os pieces Hin.
    destruct Hpath; unfold_stages; split_in Hin; try discriminate Hin;
      inversion Hin; subst; clear Hin; (split; [reflexivity|choose_report_form]).
  - intros shader maxLength capacity written Hin.
    destruct Hpath; unfold_stages; split_in Hin; try discriminate Hin;
      inversion Hin; subst; clear Hin.
    all: split; [reflexivity|]; split; [reflexivity|].
    all: split; [pose proof (info_log_written_short full); lia|].
    all: eexists; cbn [app]; find_in.
  - intros program maxLength capacity written Hin.
    destruct Hpath; unfold_stages; split_in Hin; try discriminate Hin;
      inversion Hin; subst; clear Hin.
    all: split; [reflexivity|]; split; [reflexivity|].
    all: split; [pose proof (info_log_written_short full); lia|].
    all: cbn [app]; find_in.
Qed.

(** A link failure with a driver log of 600 characters. *)
Lemma reports_are_tagged_and_bounded_witness :
  In (GlGetProgramInfoLog 3%N 512 512
        (info_log_written 512 (Demo.sc_log Demo.long_log)))
     (trace (snd (run (Demo.env Demo.long_log) 3))) /\
  String.length (Demo.sc_log Demo.long_log) = 600%nat /\
  Z.of_nat (String.length (info_log_written 512 (Demo.sc_log Demo.long_log))) + 1
    <= 512.
Proof.
  assert (H : In (GlGetProgramInfoLog 3%N 512 512
                    (info_log_written 512 (Demo.sc_log Demo.long_log)))
                 (trace (snd (run (Demo.env Demo.long_log) 3))))
    by (vm_compute; repeat first [left; reflexivity | right]).
  split; [exact H|]. split; [reflexivity|].
  destruct (reports_are_tagged_and_bounded (Demo.env Demo.long_log) 3)
    as (_ & _ & _ & Hprogram).
  destruct (Hprogram _ _ _ _ H) as (_ & _ & Hfit & _). exact Hfit.
Defined.



Ltac destruct_outcomes :=
  repeat match goal with
  | o : load_outcome |- _ => destruct o
  | o : compile_outcome |- _ => destruct o
  end.


(** ** Draw calls and the close flag *)

Lemma draws_guarded_split (armed : bool) (pre post : history) (mode : GLenum)
  (first : GLint) (count : GLsizei) :
  draws_guarded armed (pre ++ GlDrawArrays mode first count :: post) = true ->
  (armed = true /\ filter is_draw pre = [] /\ filter is_check pre = []) \/
  exists pre' window mid,
    pre = pre' ++ GlfwWindowShouldClose window false :: mid /\
    filter is_draw mid = [] /\ filter is_check mid = [].
Proof.
  revert armed; induction pre as [|e pre IH]; intros armed H.
  - cbn in H. apply andb_prop in H as [-> _]. now left.
  - destruct e; cbn [app draws_guarded] in H;
      try (destruct (IH _ H) as [(Ha & Hd & Hc)|(pre' & window' & mid & -> & Hd & Hc)];
           [left; cbn; repeat split; assumption
           |right; eexists (_ :: pre'), window', mid; cbn; repeat split; assumption]).
    + match goal with
      | |- context [GlfwWindowShouldClose ?win ?r :: pre] =>
          destruct (IH _ H) as [(Ha & Hd & Hc)|(pre' & window' & mid & -> & Hd & Hc)];
          [right; exists [], win, pre; destruct r; [discriminate Ha|];
           repeat split; assumption
          |right; exists (GlfwWindowShouldClose win r :: pre'), window', mid;
           repeat split; assumption]
      end.
    + apply andb_prop in H as [_ H].
      destruct (IH _ H) as [(Ha & _)|(pre' & window' & mid & -> & Hd & Hc)];
        [discriminate Ha|].
      right. eexists (_ :: pre'), window', mid. repeat split; assumption.
Qed.

Lemma quiet_after_stopped (stop : event -> bool) (t : history) :
  quiet_after stop true t = true -> draws t = 0%nat.
Proof.
  induction t as [|e t IH]; [reflexivity|]. cbn [quiet_after orb andb].
  intros H. apply andb_prop in H as [He H].
  rewrite draws_cons. destruct (is_draw e); [discriminate He|]. now apply IH.
Qed.

Lemma quiet_after_split (stop : event -> bool) (stopped : bool) (pre post : history)
  (e : event) :
  quiet_after stop stopped (pre ++ e :: post) = true ->
  stop e = true ->
  draws post = 0%nat.
Proof.
  revert stopped; induction pre as [|a pre IH]; intros stopped H He.
  - cbn [app quiet_after] in H. apply andb_prop in H as [_ H].
    rewrite He, orb_true_r in H. now apply quiet_after_stopped in H.
  - cbn [app quiet_after] in H. apply andb_prop in H as [_ H]. eapply IH; eassumption.
Qed.

Lemma draws_guarded_app (armed : bool) (t1 t2 : history) :
  filter is_draw t1 = [] -> filter is_check t1 = [] ->
  draws_guarded armed (t1 ++ t2) = draws_guarded armed t2.
Proof.
  induction t1 as [|e t1 IH]; [reflexivity|]. intros Hd Hc.
  destruct e; cbn in Hd, Hc; try discriminate; cbn [app draws_guarded]; auto.
Qed.

Lemma quiet_after_app (stop : event -> bool) (stopped : bool) (t1 t2 : history) :
  filter stop t1 = [] ->
  quiet_after stop stopped (t1 ++ t2) = true <->
  quiet_after stop stopped t1 = true /\ quiet_after stop stopped t2 = true.
Proof.
  revert stopped; induction t1 as [|e t1 IH]; intros stopped Hs; [cbn; tauto|].
  cbn in Hs. destruct (stop e) eqn:He; [discriminate Hs|].
  cbn [app quiet_after]. rewrite He, orb_false_r, !andb_true_iff, (IH _ Hs). tauto.
Qed.

Lemma quiet_without_draws (stop : event -> bool) (stopped : bool) (t : history) :
  filter is_draw t = [] -> quiet_after stop stopped t = true.
Proof.
  revert stopped; induction t as [|e t IH]; intros stopped Hd; [reflexivity|].
  cbn in Hd. destruct (is_draw e) eqn:He; [discriminate Hd|].
  cbn [quiet_after]. rewrite He, andb_false_r. cbn. now apply IH.
Qed.

Lemma filter_viewports (p : event -> bool) (resizes : list (Z * Z)) :
  (forall s, p (viewport_of s) = false) ->
  filter p (map viewport_of resizes) = [].
Proof.
  intros Hp. induction resizes as [|s rest IH]; [reflexivity|].
  cbn [map filter]. now rewrite Hp.
Qed.

Section LoopChecks.

Variables (window : GLFWwindow) (shaderProgram VAO : GLuint).

Lemma draws_guarded_iteration (armed : bool) (key : Z) (resizes : list (Z * Z))
  (t : history) :
  draws_guarded armed (iteration_events window shaderProgram VAO key resizes ++ t) =
  draws_guarded false t.
Proof.
  unfold iteration_events. rewrite <- !app_assoc. cbn [app draws_guarded negb andb].
  destruct (key =? GLFW_PRESS); cbn [app draws_guarded];
    rewrite draws_guarded_app by (apply filter_viewports; reflexivity); reflexivity.
Qed.

Lemma draws_guarded_loop (armed : bool) (iters : list (Z * list (Z * Z))) (t : history) :
  draws_guarded false t = true ->
  draws_guarded armed t = true ->
  draws_guarded armed (loop_events window shaderProgram VAO iters ++ t) = true.
Proof.
  intros Ht. unfold loop_events. revert armed.
  induction iters as [|i iters IH]; intros armed Ha; [exact Ha|].
  cbn [flat_map]. rewrite <- app_assoc, draws_guarded_iteration. now apply IH.
Qed.

Lemma observes_close_loop (iters : list (Z * list (Z * Z))) :
  filter observes_close (loop_events window shaderProgram VAO iters) = [].
Proof.
  apply filter_nil_iff. intros e He.
  apply In_loop_events in He as [He|[->|[s ->]]]; try reflexivity.
  destruct e; try discriminate He; try reflexivity.
  match goal with b : bool |- _ => destruct b end; [discriminate He|reflexivity].
Qed.

Lemma quiet_loop_unstopped (stop : event -> bool) (iters : list (Z * list (Z * Z))) :
  filter stop (loop_events window shaderProgram VAO iters) = [] ->
  quiet_after stop false (loop_events window shaderProgram VAO iters) = true.
Proof.
  intros Hs. induction (loop_events window shaderProgram VAO iters) as [|e t IH];
    [reflexivity|].
  cbn in Hs. destruct (stop e) eqn:He; [discriminate Hs|].
  cbn [quiet_after andb negb orb]. rewrite He. now apply IH.
Qed.

(** An iteration in which escape was down raises the flag after its draw
    call, and draws nothing afterwards. *)
Lemma raises_iteration (key : Z) (resizes : list (Z * Z)) (t : history) :
  quiet_after raises_close_flag false
    (iteration_events window shaderProgram VAO key resizes ++ t) =
  quiet_after raises_close_flag (key =? GLFW_PRESS) t.
Proof.
  assert (Hrest : forall stopped,
    quiet_after raises_close_flag stopped
      (map viewport_of resizes ++ GlfwSwapBuffers window :: t) =
    quiet_after raises_close_flag stopped t).
  { intros stopped. induction resizes as [|s rest IH];
      cbn [map app quiet_after is_draw raises_close_flag viewport_of];
      rewrite andb_false_r, orb_false_r; cbn [negb andb]; auto. }
  unfold iteration_events. rewrite <- !app_assoc.
  destruct (key =? GLFW_PRESS);
    cbn [app quiet_after is_draw raises_close_flag andb negb orb]; apply Hrest.
Qed.

Lemma raises_loop (iters : list (Z * list (Z * Z))) (t : history) :
  (forall pre i post, iters = pre ++ i :: post -> post <> [] -> fst i <> GLFW_PRESS) ->
  filter is_draw t = [] ->
  quiet_after raises_close_flag false
    (loop_events window shaderProgram VAO iters ++ t) = true.
Proof.
  intros Hlast Ht. unfold loop_events.
  induction iters as [|i iters IH]; [now apply quiet_without_draws|].
  cbn [flat_map]. rewrite <- app_assoc, raises_iteration.
  destruct iters as [|j iters].
  - cbn [flat_map app]. now apply quiet_without_draws.
  - assert (Hkey : fst i <> GLFW_PRESS)
      by (apply (Hlast [] i (j :: iters)); [reflexivity|discriminate]).
    apply Z.eqb_neq in Hkey. rewrite Hkey. apply IH.
    intros pre k post Heq. apply (Hlast (i :: pre) k post). now rewrite Heq.
Qed.

End LoopChecks.

Lemma draws_guarded_without_draws (armed : bool) (t : history) :
  filter is_draw t = [] -> draws_guarded armed t = true.
Proof.
  revert armed; induction t as [|e t IH]; intros armed Hd; [reflexivity|].
  destruct e; cbn in Hd; try discriminate Hd; cbn [draws_guarded]; auto.
Qed.

(** The three checks on the log of a run. *)
Lemma run_draws_checked (env : environment) (fuel : nat) :
  draws_guarded false (trace (snd (run env fuel))) = true /\
  quiet_after observes_close false (trace (snd (run env fuel))) = true /\
  quiet_after raises_close_flag false (trace (snd (run env fuel))) = true.
Proof.
  destruct (run_path env fuel) as (code & w0 & -> & Hpath). cbn [fst snd].
  generalize dependent (trace w0). intros t Hpath.
  destruct Hpath.
  1-7: match goal with
       | |- draws_guarded _ ?t = true /\ _ =>
           assert (Hd : filter is_draw t = [])
             by (unfold_stages; destruct_outcomes; reflexivity)
       end;
       (split; [|split]);
       [now apply draws_guarded_without_draws
       |now apply quiet_without_draws|now apply quiet_without_draws].
  set (before := shaders_events window loaded vertexSource fragmentSource
                   vertexShader vertexStatus fragmentShader fragmentStatus ++
                 link_events shaderProgram vertexShader fragmentShader status ++
                 vertex_events vertexShader fragmentShader VAO VBO).
  set (after := if closed then GlfwWindowShouldClose window true ::
                               shutdown_events VAO VBO shaderProgram else []).
  assert (Hd : filter is_draw before = []) by reflexivity.
  assert (Hc : filter is_check before = []) by reflexivity.
  assert (Ho : filter observes_close before = []) by reflexivity.
  assert (Hr : filter raises_close_flag before = []) by reflexivity.
  assert (Hda : filter is_draw after = []) by (subst after; destruct closed; reflexivity).
  replace (shaders_events window loaded vertexSource fragmentSource
             vertexShader vertexStatus fragmentShader fragmentStatus ++
           link_events shaderProgram vertexShader fragmentShader status ++
           vertex_events vertexShader fragmentShader VAO VBO ++
           loop_events window shaderProgram VAO iters ++ after)
    with (before ++ loop_events window shaderProgram VAO iters ++ after)
    by (subst before; now rewrite <- !app_assoc).
  split; [|split].
  - rewrite draws_guarded_app by assumption.
    apply draws_guarded_loop; now apply draws_guarded_without_draws.
  - apply quiet_after_app; [assumption|].
    split; [now apply quiet_without_draws|].
    apply quiet_after_app; [apply observes_close_loop|].
    split; [apply quiet_loop_unstopped, observes_close_loop
           |now apply quiet_without_draws].
  - apply quiet_after_app; [assumption|].
    split; [now apply quiet_without_draws|].
    now apply raises_loop.
Qed.

(** C5: when the escape key is down, [processInput] raises the close
    flag; in the log of a run every draw call follows an evaluation of the
    loop condition that saw the flag down, with no other evaluation and no
    other draw call between them, and no draw call comes after an
    evaluation that saw the flag up, nor after the call that raised it. *)
Theorem escape_stops_drawing (env : environment) (window : GLFWwindow) (w : world)
  (fuel : nat) :
  (escape_key env window w = GLFW_PRESS ->
   processInput env window w =
   (Ok tt,
    {| trace := trace w ++ [GlfwGetKey window GLFW_KEY_ESCAPE GLFW_PRESS;
                            GlfwSetWindowShouldClose window true];
       should_close := true;
       resize_callback_set := resize_callback_set w |})) /\
  (forall pre mode first count post,
      trace (snd (run env fuel)) = pre ++ GlDrawArrays mode first count :: post ->
      exists pre' window' mid,
        pre = pre' ++ GlfwWindowShouldClose window' false :: mid /\
        filter is_draw mid = [] /\ filter is_check mid = []) /\
  (forall pre window' post,
      trace (snd (run env fuel)) = pre ++ GlfwWindowShouldClose window' true :: post ->
      draws post = 0%nat) /\
  (forall pre window' post,
      trace (snd (run env fuel)) = pre ++ GlfwSetWindowShouldClose window' true :: post ->
      draws post = 0%nat).
Proof.
  destruct (run_draws_checked env fuel) as (Hguard & Hclose & Hraise).
  split; [|split; [|split]].
  - intros Hkey. rewrite processInput_spec. unfold escape_key in Hkey.
    rewrite Hkey. reflexivity.
  - intros pre mode first count post Heq. rewrite Heq in Hguard.
    apply draws_guarded_split in Hguard as [(Hfalse & _)|Hsplit];
      [discriminate Hfalse|exact Hsplit].
  - intros pre window' post Heq. rewrite Heq in Hclose.
    eapply quiet_after_split; [exact Hclose|reflexivity].
  - intros pre window' post Heq. rewrite Heq in Hraise.
    eapply quiet_after_split; [exact Hraise|reflexivity].
Qed.

(** Escape is down once two frames have been polled: the third iteration
    raises the flag and is the last one. *)
Lemma escape_stops_drawing_witness :
  escape_key (Demo.env Demo.good) 1%N (snd (run (Demo.env Demo.good) 2)) = GLFW_PRESS /\
  should_close (snd (processInput (Demo.env Demo.good) 1%N
                       (snd (run (Demo.env Demo.good) 2)))) = true /\
  draws (trace (snd (run (Demo.env Demo.good) 9))) = 3%nat.
Proof.
  assert (H : escape_key (Demo.env Demo.good) 1%N (snd (run (Demo.env Demo.good) 2))
              = GLFW_PRESS) by reflexivity.
  split; [exact H|].
  destruct (escape_stops_drawing (Demo.env Demo.good) 1%N
              (snd (run (Demo.env Demo.good) 2)) 9) as (Hinput & _).
  rewrite (Hinput H). split; reflexivity.
Defined.

(** ** The entry of the render loop *)

Lemma loop_entry_app (t1 t2 : history) :
  filter is_check t1 = [] -> loop_entry (t1 ++ t2) = t1 ++ loop_entry t2.
Proof.
  induction t1 as [|e t1 IH]; [reflexivity|]. intros Hc.
  destruct e; cbn in Hc; try discriminate Hc; cbn [app loop_entry]; now rewrite IH.
Qed.

Lemma loop_entry_loop (window : GLFWwindow) (shaderProgram VAO VBO : GLuint)
  (iters : list (Z * list (Z * Z))) (closed : bool) :
  loop_entry (loop_events window shaderProgram VAO iters ++
              (if closed
               then GlfwWindowShouldClose window true ::
                    shutdown_events VAO VBO shaderProgram
               else [])) = [].
Proof.
  destruct iters as [|i iters]; [destruct closed; reflexivity|reflexivity].
Qed.

Lemma live_app (t1 t2 : history) : live (t1 ++ t2) = fold_left live_step t2 (live t1).
Proof. unfold live. apply fold_left_app. Qed.

Ltac known_names :=
  repeat match goal with
  | H : ?n <> 0%N |- context [(?n =? 0)%N] => rewrite (proj2 (N.eqb_neq n 0%N) H)
  end.

Ltac decide_objects :=
  repeat match goal with
  | |- context [object_eq_dec ?a ?b] =>
      destruct (object_eq_dec a b); try congruence; cbn [of_kind filter fst snd app remove]
  end.

Ltac unfold_stages_in H :=
  unfold shaders_events, sources_events, setup_events, startup_events, link_events,
    link_failure_events, vertex_events, shutdown_events, compile_events, load_events,
    compile_report, load_report, link_report, no_window_report, no_glad_report in H.

(** A run that saw a link status other than 0 is on the rendering path. *)
Lemma linked_path (t : history) (code : option Z) (program : GLuint) (status : GLint) :
  main_path t code ->
  In (GlGetProgramiv program GL_LINK_STATUS status) t ->
  status <> 0 ->
  exists window loaded vertexSource fragmentSource vertexShader vertexStatus
         fragmentShader fragmentStatus VAO VBO iters (closed : bool),
    vertexShader <> 0%N /\ fragmentShader <> 0%N /\
    (forall pre i post, iters = pre ++ i :: post -> post <> [] -> fst i <> GLFW_PRESS) /\
    code = (if closed then Some 0 else None) /\
    t = shaders_events window loaded vertexSource fragmentSource
          vertexShader vertexStatus fragmentShader fragmentStatus ++
        link_events program vertexShader fragmentShader status ++
        vertex_events vertexShader fragmentShader VAO VBO ++
        loop_events window program VAO iters ++
        (if closed
         then GlfwWindowShouldClose window true :: shutdown_events VAO VBO program
         else []).
Proof.
  intros Hpath Hin Hs.
  destruct Hpath; pose proof Hin as Hin'; unfold_stages_in Hin'; split_in Hin';
    try discriminate Hin'; inversion Hin'; subst; try contradiction; clear Hin'.
  exists window, loaded, vertexSource, fragmentSource, vertexShader, vertexStatus,
    fragmentShader, fragmentStatus, VAO, VBO, iters, closed.
  repeat split; auto.
Qed.

(** C3: a run of [main] that saw a link status of 0 fetched the log into
    the 512-character buffer, reported it, deleted the two shaders and the
    program, called [glfwTerminate] and returned -1, with nothing after; a
    run that saw another link status deleted the two shaders right after,
    and at the entry of the render loop the program is the one object that
    exists among shaders and programs. *)
Theorem link_failure_aborts_success_keeps_program (env : environment) (fuel : nat)
  (program : GLuint) (status : GLint) :
  (In (GlGetProgramiv program GL_LINK_STATUS 0) (trace (snd (run env fuel))) ->
   fst (run env fuel) = Ok (Some (-1)) /\
   exists before vertexShader fragmentShader infoLog,
     trace (snd (run env fuel)) =
       before ++
       [GlCreateProgram program;
        GlAttachShader program vertexShader;
        GlAttachShader program fragmentShader;
        GlLinkProgram program;
        GlGetProgramiv program GL_LINK_STATUS 0;
        GlGetProgramInfoLog program INFO_LOG_SIZE INFO_LOG_SIZE infoLog;
        StreamWrite cerr [("ERROR::SHADER::PROGRAM::LINKING_FAILED" ++ nl)%string;
                          infoLog; endl];
        GlDeleteShader vertexShader;
        GlDeleteShader fragmentShader;
        GlDeleteProgram program;
        GlfwTerminate] /\
     Z.of_nat (String.length infoLog) < INFO_LOG_SIZE /\
     created before = [(Shader, vertexShader); (Shader, fragmentShader)] /\
     delete_calls before = []) /\
  (In (GlGetProgramiv program GL_LINK_STATUS status) (trace (snd (run env fuel))) ->
   status <> 0 -> program <> 0%N ->
   of_kind Program (live (loop_entry (trace (snd (run env fuel))))) =
     [(Program, program)] /\
   of_kind Shader (live (loop_entry (trace (snd (run env fuel))))) = [] /\
   exists before vertexShader fragmentShader after,
     trace (snd (run env fuel)) =
       before ++
       [GlCreateProgram program;
        GlAttachShader program vertexShader;
        GlAttachShader program fragmentShader;
        GlLinkProgram program;
        GlGetProgramiv program GL_LINK_STATUS status;
        GlDeleteShader vertexShader;
        GlDeleteShader fragmentShader] ++ after /\
     created before = [(Shader, vertexShader); (Shader, fragmentShader)] /\
     delete_calls before = [] /\
     filter is_link_call after = [] /\
     ~ In (Program, program) (delete_calls (loop_entry (trace (snd (run env fuel)))))).
Proof.
  destruct (run_path env fuel) as (code & w0 & -> & Hpath). cbn [fst snd].
  generalize dependent (trace w0). intros t Hpath.
  split.
  - intros Hin.
    destruct Hpath; unfold_stages; split_in Hin; try discriminate Hin;
      inversion Hin; subst; try contradiction; clear Hin.
    split; [reflexivity|].
    exists (shaders_events window loaded vertexSource fragmentSource
              vertexShader vertexStatus fragmentShader fragmentStatus),
      vertexShader, fragmentShader, (info_log_written INFO_LOG_SIZE full).
    split; [unfold_stages; rewrite <- ?app_assoc; reflexivity|].
    split; [apply info_log_written_short|].
    unfold_stages. unfold created, delete_calls.
    rewrite !flat_map_app. cbn [flat_map creates deletes option_list app].
    known_names. split; reflexivity.
  - intros Hin Hs Hp.
    destruct (@linked_path _ _ _ _ Hpath Hin Hs)
      as (window & loaded & vertexSource & fragmentSource & vertexShader & vertexStatus &
          fragmentShader & fragmentStatus & VAO & VBO & iters & closed &
          HvertexShader & HfragmentShader & _ & _ & ->).
    set (before := shaders_events window loaded vertexSource fragmentSource
                     vertexShader vertexStatus fragmentShader fragmentStatus).
    assert (Hentry :
      loop_entry (before ++
                  link_events program vertexShader fragmentShader status ++
                  vertex_events vertexShader fragmentShader VAO VBO ++
                  loop_events window program VAO iters ++
                  (if closed
                   then GlfwWindowShouldClose window true ::
                        shutdown_events VAO VBO program
                   else [])) =
      before ++ link_events program vertexShader fragmentShader status ++
      vertex_events vertexShader fragmentShader VAO VBO).
    { rewrite !app_assoc. rewrite <- (app_assoc _ (loop_events _ _ _ _)).
      rewrite loop_entry_app by reflexivity.
      now rewrite loop_entry_loop, app_nil_r, <- !app_assoc. }
    rewrite Hentry.
    assert (Hlive :
      live (before ++ link_events program vertexShader fragmentShader status ++
            vertex_events vertexShader fragmentShader VAO VBO) =
      (Program, program) ::
      option_list (creates (GlGenVertexArrays 1 VAO)) ++
      option_list (creates (GlGenBuffers 1 VBO))).
    { clear Hin Hentry. subst before. unfold_stages. unfold live. rewrite !fold_left_app.
      destruct vertexShader as [|vs]; [congruence|].
      destruct fragmentShader as [|fs]; [congruence|].
      destruct program as [|p]; [congruence|].
      destruct VAO as [|va], VBO as [|vb];
        cbn [fold_left live_step creates deletes N.eqb app option_list remove];
        decide_objects; reflexivity. }
    rewrite Hlive.
    split; [cbn; destruct (VAO =? 0)%N, (VBO =? 0)%N; reflexivity|].
    split; [cbn; destruct (VAO =? 0)%N, (VBO =? 0)%N; reflexivity|].
    exists before, vertexShader, fragmentShader,
      (skipn 2 (vertex_events vertexShader fragmentShader VAO VBO) ++
       loop_events window program VAO iters ++
       (if closed
        then GlfwWindowShouldClose window true :: shutdown_events VAO VBO program
        else [])).
    split; [unfold_stages; cbn [skipn]; rewrite <- ?app_assoc; reflexivity|].
    split; [subst before; unfold_stages; unfold created;
            rewrite !flat_map_app; cbn [flat_map creates option_list app];
            known_names; reflexivity|].
    split; [reflexivity|].
    split.
    + rewrite !filter_app.
      replace (filter is_link_call (loop_events window program VAO iters)) with (@nil event).
      * destruct closed; reflexivity.
      * symmetry. apply filter_nil_iff. intros e He.
        apply In_loop_events in He as [He|[->|[s ->]]]; try reflexivity.
        destruct e; try discriminate He; reflexivity.
    + subst before. unfold_stages. unfold delete_calls.
      rewrite !flat_map_app. cbn [flat_map deletes option_list app In].
      intros [Hd|[Hd|[]]]; discriminate Hd.
Qed.

(** A link failure, and a successful start. *)
Lemma link_failure_aborts_success_keeps_program_witness :
  (In (GlGetProgramiv 3%N GL_LINK_STATUS 0)
      (trace (snd (run (Demo.env Demo.bad_link) 4))) /\
   In (GlGetProgramiv 3%N GL_LINK_STATUS 1)
      (trace (snd (run (Demo.env Demo.good) 4)))) /\
  fst (run (Demo.env Demo.bad_link) 4) = Ok (Some (-1)) /\
  of_kind Program (live (loop_entry (trace (snd (run (Demo.env Demo.good) 4))))) =
    [(Program, 3%N)] /\
  of_kind Shader (live (loop_entry (trace (snd (run (Demo.env Demo.good) 4))))) = [].
Proof.
  assert (H1 : In (GlGetProgramiv 3%N GL_LINK_STATUS 0)
                  (trace (snd (run (Demo.env Demo.bad_link) 4))))
    by (vm_compute; repeat first [left; reflexivity | right]).
  assert (H2 : In (GlGetProgramiv 3%N GL_LINK_STATUS 1)
                  (trace (snd (run (Demo.env Demo.good) 4))))
    by (vm_compute; repeat first [left; reflexivity | right]).
  split; [exact (conj H1 H2)|].
  destruct (link_failure_aborts_success_keeps_program (Demo.env Demo.bad_link) 4 3%N 0)
    as (Hfail & _).
  destruct (link_failure_aborts_success_keeps_program (Demo.env Demo.good) 4 3%N 1)
    as (_ & Hgood).
  destruct (Hfail H1) as (Hcode & _).
  destruct (Hgood H2) as (Hprogram & Hshaders & _); [discriminate|discriminate|].
  exact (conj Hcode (conj Hprogram Hshaders)).
Defined.

(** ** The vertex buffer *)

Lemma unique_split {T} (p : T -> bool) (pre post before after : list T) (x y : T) :
  p x = true ->
  filter p before = [] -> filter p after = [] ->
  pre ++ x :: post = before ++ y :: after ->
  pre = before /\ x = y /\ post = after.
Proof.
  intros Hx. revert before; induction pre as [|a pre IH]; intros [|b before] Hb Ha Heq.
  - injection Heq as -> ->. auto.
  - injection Heq as -> _. cbn in Hb. rewrite Hx in Hb. discriminate Hb.
  - injection Heq as -> Heq.
    assert (In x after) as Hin by (rewrite <- Heq; apply in_elt).
    rewrite (proj1 (filter_nil_iff p after) Ha x Hin) in Hx. discriminate Hx.
  - injection Heq as -> Heq. cbn in Hb. destruct (p b); [discriminate Hb|].
    destruct (IH before Hb Ha Heq) as (-> & -> & ->). auto.
Qed.






(** ** Lifetimes of the GPU objects *)

Lemma live_step_other (l : list object) (e : event) :
  is_lifetime_call e = false -> live_step l e = l.
Proof. destruct e; cbn; intros H; try discriminate H; reflexivity. Qed.

Lemma creates_other (e : event) : is_lifetime_call e = false -> creates e = None.
Proof. destruct e; cbn; intros H; try discriminate H; reflexivity. Qed.

Lemma deletes_other (e : event) : is_lifetime_call e = false -> deletes e = None.
Proof. destruct e; cbn; intros H; try discriminate H; reflexivity. Qed.

Lemma created_lifetime (t : history) : created t = created (filter is_lifetime_call t).
Proof.
  unfold created. induction t as [|e t IH]; [reflexivity|]. cbn [flat_map filter].
  destruct (is_lifetime_call e) eqn:He; cbn [flat_map]; rewrite IH; [reflexivity|].
  now rewrite (creates_other e He).
Qed.

Lemma delete_calls_lifetime (t : history) :
  delete_calls t = delete_calls (filter is_lifetime_call t).
Proof.
  unfold delete_calls. induction t as [|e t IH]; [reflexivity|]. cbn [flat_map filter].
  destruct (is_lifetime_call e) eqn:He; cbn [flat_map]; rewrite IH; [reflexivity|].
  now rewrite (deletes_other e He).
Qed.

Lemma live_from_lifetime (t : history) (l : list object) :
  fold_left live_step t l = fold_left live_step (filter is_lifetime_call t) l.
Proof.
  revert l; induction t as [|e t IH]; intros l; [reflexivity|]. cbn [fold_left filter].
  destruct (is_lifetime_call e) eqn:He; cbn [fold_left]; [apply IH|].
  rewrite (live_step_other l e He). apply IH.
Qed.

Lemma live_lifetime (t : history) : live t = live (filter is_lifetime_call t).
Proof. apply live_from_lifetime. Qed.

Lemma names_fresh_lifetime (t : history) (l : list object) :
  names_fresh_from l t = names_fresh_from l (filter is_lifetime_call t).
Proof.
  revert l; induction t as [|e t IH]; intros l; [reflexivity|].
  cbn [names_fresh_from filter].
  destruct (is_lifetime_call e) eqn:He; cbn [names_fresh_from]; [now rewrite IH|].
  now rewrite (creates_other e He), (live_step_other l e He), IH.
Qed.

Lemma lifetime_loop (window : GLFWwindow) (shaderProgram VAO : GLuint)
  (iters : list (Z * list (Z * Z))) :
  filter is_lifetime_call (loop_events window shaderProgram VAO iters) = [].
Proof.
  apply filter_nil_iff. intros e He.
  apply In_loop_events in He as [He|[->|[s ->]]]; try reflexivity.
  destruct e; try discriminate He; reflexivity.
Qed.

Lemma deleted_once_lifetime (t : history) :
  deleted_once (filter is_lifetime_call t) -> deleted_once t.
Proof.
  unfold deleted_once.
  now rewrite <- created_lifetime, <- delete_calls_lifetime, <- live_lifetime.
Qed.

Ltac decide_objects_in H :=
  repeat match type of H with
  | context [object_eq_dec ?a ?b] =>
      destruct (object_eq_dec a b); try congruence;
      cbn [remove app existsb in_use handle_eqb handle_of name_space_eqb name_space_of
           fst snd negb andb orb N.eqb] in H
  end.

Ltac compare_names_in H :=
  repeat match type of H with
  | context [Pos.eqb ?a ?b] =>
      destruct (Pos.eqb_spec a b); subst; cbn [negb andb orb] in H; try discriminate H
  end.

Ltac finish_lifetimes :=
  unfold deleted_once, created, delete_calls, live;
  cbn [flat_map creates deletes option_list N.eqb app fold_left live_step remove map];
  (split; [|split]);
  [ intros obj Hobj; cbn [In] in Hobj;
    repeat (destruct Hobj as [<-|Hobj]; [cbn [count_occ]; decide_objects; reflexivity|]);
    destruct Hobj
  | unfold handle_of; cbn [name_space_of fst snd];
    repeat (apply NoDup_cons;
            [cbn [In]; intros Hdup; decompose [or] Hdup; congruence|]);
    apply NoDup_nil
  | decide_objects; reflexivity ].

Ltac settle_lifetimes Hfresh :=
  unfold names_fresh in Hfresh;
  cbn [names_fresh_from live_step creates deletes N.eqb remove app existsb in_use
       handle_eqb handle_of name_space_eqb name_space_of fst snd negb andb orb] in Hfresh;
  decide_objects_in Hfresh; compare_names_in Hfresh;
  finish_lifetimes.

(** The lifetime calls of each path that returns. *)
Lemma returning_path_lifetimes (t : history) (code : Z) :
  main_path t (Some code) ->
  names_fresh (filter is_lifetime_call t) = true ->
  deleted_once (filter is_lifetime_call t).
Proof.
  intros Hpath.
  remember (Some code) as r eqn:Hr.
  destruct Hpath; unfold_stages; rewrite ?filter_app, ?lifetime_loop.
  - intros _. cbn. repeat split; [intros o []|constructor].
  - intros _. cbn. repeat split; [intros o []|constructor].
  - destruct o; intros _; cbn; repeat split; try (intros ? []); constructor.
  - destruct o; intros _; cbn; repeat split; try (intros ? []); constructor.
  - cbn [filter is_lifetime_call app]. intros Hfresh.
    destruct o; cbn [filter is_lifetime_call app] in *;
      destruct shader as [|s];
      match goal with Hz : compile_result _ _ = 0%N |- _ => cbn in Hz; try discriminate Hz end.
    + settle_lifetimes Hfresh.
    + settle_lifetimes Hfresh.
    + settle_lifetimes Hfresh.
  - cbn [filter is_lifetime_call app]. intros Hfresh.
    destruct vertexShader as [|vs]; [congruence|].
    destruct o; cbn [filter is_lifetime_call app] in *;
      destruct shader as [|s];
      match goal with Hz : compile_result _ _ = 0%N |- _ => cbn in Hz; try discriminate Hz end.
    all: settle_lifetimes Hfresh.
  - cbn [filter is_lifetime_call app]. intros Hfresh.
    destruct vertexShader as [|vs]; [congruence|].
    destruct fragmentShader as [|fs]; [congruence|].
    destruct shaderProgram as [|p].
    all: settle_lifetimes Hfresh.
  - destruct closed; [|discriminate Hr].
    cbn [filter is_lifetime_call app]. intros Hfresh.
    destruct vertexShader as [|vs]; [congruence|].
    destruct fragmentShader as [|fs]; [congruence|].
    destruct shaderProgram as [|p], VAO as [|va], VBO as [|vb].
    all: settle_lifetimes Hfresh.
Qed.

(** C1: when [main] returns, on whichever path, and the driver handed out
    fresh names, every GPU object that was created has been handed exactly
    once to the delete call of its kind, no handle has been handed to a
    delete call twice, and no object is left. *)
Theorem gpu_objects_deleted_once (env : environment) (fuel : nat) (code : Z)
  (w : world) :
  run env fuel = (Ok (Some code), w) ->
  names_fresh (trace w) = true ->
  (forall o, In o (created (trace w)) ->
             count_occ object_eq_dec (delete_calls (trace w)) o = 1%nat) /\
  NoDup (map handle_of (delete_calls (trace w))) /\
  live (trace w) = [].
Proof.
  intros Hrun Hfresh.
  destruct (run_path env fuel) as (code' & w' & Hrun' & Hpath).
  rewrite Hrun in Hrun'. injection Hrun' as <- <-.
  apply deleted_once_lifetime.
  apply (returning_path_lifetimes Hpath).
  unfold names_fresh in *. now rewrite <- names_fresh_lifetime.
Qed.

(** A run that renders three frames and returns 0; the vertex array, the
    buffer and the vertex shader all have the name 1. *)
Lemma gpu_objects_deleted_once_witness :
  (run (Demo.env Demo.good) 5 = (Ok (Some 0), snd (run (Demo.env Demo.good) 5)) /\
   names_fresh (trace (snd (run (Demo.env Demo.good) 5))) = true) /\
  created (trace (snd (run (Demo.env Demo.good) 5))) =
    [(Shader, 1%N); (Shader, 2%N); (Program, 3%N); (VertexArray, 1%N); (Buffer, 1%N)] /\
  live (trace (snd (run (Demo.env Demo.good) 5))) = [].
Proof.
  assert (H1 : run (Demo.env Demo.good) 5 =
               (Ok (Some 0), snd (run (Demo.env Demo.good) 5)))
    by (vm_compute; reflexivity).
  assert (H2 : names_fresh (trace (snd (run (Demo.env Demo.good) 5))) = true)
    by (vm_compute; reflexivity).
  split; [exact (conj H1 H2)|]. split; [vm_compute; reflexivity|].
  exact (proj2 (proj2 (gpu_objects_deleted_once (Demo.env Demo.good) 5 H1 H2))).
Defined.

(** * Further properties of the code *)

(** ** Shutdown *)

Lemma filter_terminate_loop (window : GLFWwindow) (shaderProgram VAO : GLuint)
  (iters : list (Z * list (Z * Z))) :
  filter is_terminate (loop_events window shaderProgram VAO iters) = [].
Proof.
  apply filter_nil_iff. intros e He.
  apply In_loop_events in He as [He|[->|[s ->]]]; try reflexivity.
  destruct e; try discriminate He; reflexivity.
Qed.

(** X1: on every path on which [main] returns, [glfwTerminate] is called
    exactly once and is the last call; while the render loop is still
    running it has not been called. *)
Theorem terminate_once_and_last (env : environment) (fuel : nat) :
  (forall code,
      fst (run env fuel) = Ok (Some code) ->
      filter is_terminate (trace (snd (run env fuel))) = [GlfwTerminate] /\
      last_call (trace (snd (run env fuel))) = Some GlfwTerminate) /\
  (fst (run env fuel) = Ok None ->
   filter is_terminate (trace (snd (run env fuel))) = []).
Proof.
  destruct (run_path env fuel) as (code & w0 & -> & Hpath). cbn [fst snd].
  generalize dependent (trace w0). intros t Hpath.
  destruct Hpath.
  1-7: split; [intros c _|discriminate];
       unfold_stages; destruct_outcomes; split; reflexivity.
  split.
  - intros c Hc. destruct closed; [|discriminate Hc]. split.
    + unfold_stages. rewrite !filter_app, filter_terminate_loop. reflexivity.
    + unfold shutdown_events.
      replace (shaders_events window loaded vertexSource fragmentSource vertexShader
                 vertexStatus fragmentShader fragmentStatus ++
               link_events shaderProgram vertexShader fragmentShader status ++
               vertex_events vertexShader fragmentShader VAO VBO ++
               loop_events window shaderProgram VAO iters ++
               [GlfwWindowShouldClose window true; GlDeleteVertexArrays 1 VAO;
                GlDeleteBuffers 1 VBO; GlDeleteProgram shaderProgram; GlfwTerminate])
        with ((shaders_events window loaded vertexSource fragmentSource vertexShader
                 vertexStatus fragmentShader fragmentStatus ++
               link_events shaderProgram vertexShader fragmentShader status ++
               vertex_events vertexShader fragmentShader VAO VBO ++
               loop_events window shaderProgram VAO iters ++
               [GlfwWindowShouldClose window true; GlDeleteVertexArrays 1 VAO;
                GlDeleteBuffers 1 VBO; GlDeleteProgram shaderProgram]) ++
              [GlfwTerminate])
        by (rewrite <- !app_assoc; reflexivity).
      apply last_call_app.
  - intros Hc. destruct closed; [discriminate Hc|].
    unfold_stages. rewrite !filter_app, filter_terminate_loop. reflexivity.
Qed.

(** ** The context of the OpenGL calls *)

Lemma gl_calls_ready_app (s : bool * bool) (t1 t2 : history) :
  gl_calls_ready s (t1 ++ t2) =
  gl_calls_ready s t1 && gl_calls_ready (fold_left ready_step t1 s) t2.
Proof.
  revert s. induction t1 as [|e t1 IH]; intros s; [reflexivity|].
  cbn [app gl_calls_ready fold_left]. rewrite IH. now rewrite andb_assoc.
Qed.

Lemma ready_step_other (s : bool * bool) (e : event) :
  is_context_call e = false -> ready_step s e = s.
Proof. destruct e; try discriminate; reflexivity. Qed.

Lemma ready_without_context_calls (s : bool * bool) (t : history) :
  filter is_context_call t = [] -> fold_left ready_step t s = s.
Proof.
  induction t as [|e t IH]; [reflexivity|]. cbn [filter fold_left].
  destruct (is_context_call e) eqn:He; [discriminate|].
  intros Ht. rewrite ready_step_other by exact He. now apply IH.
Qed.

Lemma gl_calls_ready_steady (s : bool * bool) (t : history) :
  filter is_context_call t = [] -> fst s && snd s = true -> gl_calls_ready s t = true.
Proof.
  induction t as [|e t IH]; [reflexivity|]. cbn [filter gl_calls_ready].
  destruct (is_context_call e) eqn:He; [discriminate|].
  intros Ht Hs. rewrite ready_step_other by exact He. rewrite Hs, orb_true_r.
  now apply IH.
Qed.

Lemma gl_calls_ready_split (s : bool * bool) (pre post : history) (e : event) :
  gl_calls_ready s (pre ++ e :: post) = true ->
  is_gl_call e = true ->
  fst (fold_left ready_step pre s) && snd (fold_left ready_step pre s) = true.
Proof.
  rewrite gl_calls_ready_app. cbn [gl_calls_ready]. intros H He.
  rewrite He in H. cbn [negb orb] in H.
  apply andb_prop in H as (_ & H). now apply andb_prop in H as (H & _).
Qed.

Lemma ready_after_setup (window : GLFWwindow) (loaded : Z) (rest : history) :
  window <> NULL -> loaded <> 0 ->
  gl_calls_ready (false, false) (setup_events window loaded ++ rest) =
  gl_calls_ready (true, true) rest.
Proof.
  intros Hw Hl. apply N.eqb_neq in Hw. apply Z.eqb_neq in Hl.
  unfold setup_events, startup_events. rewrite <- !app_assoc.
  cbn [app gl_calls_ready ready_step is_gl_call fst snd negb orb andb].
  now rewrite Hw, Hl.
Qed.

Lemma filter_context_loop (window : GLFWwindow) (shaderProgram VAO : GLuint)
  (iters : list (Z * list (Z * Z))) :
  filter is_context_call (loop_events window shaderProgram VAO iters) = [].
Proof.
  apply filter_nil_iff. intros e He.
  apply In_loop_events in He as [He|[->|[s ->]]]; try reflexivity.
  destruct e; try discriminate He; reflexivity.
Qed.

Lemma path_gl_calls_ready (t : history) (code : option Z) :
  main_path t code -> gl_calls_ready (false, false) t = true.
Proof.
  intros Hpath. destruct Hpath.
  - reflexivity.
  - match goal with H : window <> NULL |- _ => apply N.eqb_neq in H; rename H into Hw end.
    unfold startup_events.
    cbn [app gl_calls_ready ready_step is_gl_call fst snd negb orb andb].
    rewrite Hw. reflexivity.
  - rewrite ready_after_setup by assumption. destruct o; reflexivity.
  - rewrite ready_after_setup by assumption. destruct o; reflexivity.
  - unfold sources_events. rewrite <- !app_assoc.
    rewrite ready_after_setup by assumption. destruct o; reflexivity.
  - unfold sources_events. rewrite <- !app_assoc.
    rewrite ready_after_setup by assumption. destruct o; reflexivity.
  - unfold shaders_events, sources_events. rewrite <- !app_assoc.
    rewrite ready_after_setup by assumption. reflexivity.
  - unfold shaders_events, sources_events. rewrite <- !app_assoc.
    rewrite ready_after_setup by assumption.
    rewrite !gl_calls_ready_app.
    rewrite !ready_without_context_calls
      by first [apply filter_context_loop|reflexivity].
    rewrite (@gl_calls_ready_steady _ (loop_events window shaderProgram VAO iters))
      by first [apply filter_context_loop|reflexivity].
    destruct closed; reflexivity.
Qed.

(** X2: every OpenGL call of a run is made while the context of a window
    is current and after the function loader succeeded with it, and before
    [glfwTerminate]: at each OpenGL call the log before it has made a
    window's context current, loaded the functions with a result other
    than 0, and not terminated GLFW since. *)
Theorem gl_calls_have_context (env : environment) (fuel : nat)
  (pre post : history) (e : event) :
  trace (snd (run env fuel)) = pre ++ e :: post ->
  is_gl_call e = true ->
  context_ready pre = true.
Proof.
  intros Ht He.
  destruct (run_path env fuel) as (code & w & Hrun & Hpath).
  rewrite Hrun in Ht. cbn [snd] in Ht.
  apply path_gl_calls_ready in Hpath. rewrite Ht in Hpath.
  exact (@gl_calls_ready_split _ _ _ _ Hpath He).
Qed.

(** The first OpenGL call of a good run is the eighth call, [glViewport];
    the seven calls before it have made the context current and loaded the
    functions. *)
Lemma gl_calls_have_context_witness :
  nth_error (trace (snd (run (Demo.env Demo.good) 1))) 7 =
    Some (GlViewport 0 0 SCREEN_WIDTH SCREEN_HEIGHT) /\
  context_ready (firstn 7 (trace (snd (run (Demo.env Demo.good) 1)))) = true.
Proof.
  split; [vm_compute; reflexivity|].
  apply (@gl_calls_have_context (Demo.env Demo.good) 1
           (firstn 7 (trace (snd (run (Demo.env Demo.good) 1))))
           (skipn 8 (trace (snd (run (Demo.env Demo.good) 1))))
           (GlViewport 0 0 SCREEN_WIDTH SCREEN_HEIGHT));
    vm_compute; reflexivity.
Defined.

(** ** Where the shader sources come from *)



(** ** Runs with different bounds on the number of iterations

    The lines before the render loop do not depend on the bound: the runs
    for all bounds go the same way up to the loop. *)

Section Families.
Variable env : environment.
Variables (A B : Type) (P : (nat -> result B * world) -> Prop).

Lemma family_call (e : event) (k : nat -> unit -> M B) (w : world) :
  P (fun n => k n tt (emit [e] w)) -> P (fun n => bind (call e) (k n) w).
Proof. intros H; exact H. Qed.

Lemma family_ask (f : history -> A) (e : A -> event) (k : nat -> A -> M B) (w : world) :
  (forall a, P (fun n => k n a (emit [e a] w))) -> P (fun n => bind (ask f e) (k n) w).
Proof. intros H; apply H. Qed.

Lemma family_callback (window : GLFWwindow) (k : nat -> unit -> M B) (w : world) :
  P (fun n => k n tt {| trace := trace w ++ [GlfwSetFramebufferSizeCallback window];
             should_close := should_close w;
             resize_callback_set := true |}) ->
  P (fun n => bind (glfwSetFramebufferSizeCallback window) (k n) w).
Proof. intros H; exact H. Qed.

Lemma family_load (path : string) (k : nat -> string -> M B) (w : world) :
  (forall o, P (fun n => k n (load_result o) (emit (load_events path o) w))) ->
  P (fun n => bind (loadShaderSourceFromFile env path) (k n) w).
Proof.
  intros H. destruct (loadShaderSourceFromFile_spec env path w) as [o Ho].
  unfold bind. rewrite Ho. apply H.
Qed.

Lemma family_compile (type : GLenum) (source : string) (k : nat -> GLuint -> M B) (w : world) :
  (forall shader o, 
     P (fun n => k n (compile_result shader o) (emit (compile_events type source shader o) w))) ->
  P (fun n => bind (compileShader env type source) (k n) w).
Proof.
  intros H. destruct (compileShader_spec env type source w) as (o & Hok & Ho).
  unfold bind. rewrite Ho. now apply H.
Qed.
End Families.

Ltac family_step :=
  cbv beta;
  cbn [emit trace should_close resize_callback_set app];
  lazymatch goal with
  | |- ?Q (fun n => (if ?c then _ else _) _) => destruct c eqn:?
  | |- ?Q (fun n => bind ?m (@?k n) ?w) =>
      lazymatch m with
      | render_loop _ _ _ _ _ => fail
      | loadShaderSourceFromFile _ ?path =>
          refine (@family_load _ _ Q path k w _); intros ?o
      | compileShader _ ?type ?source =>
          refine (@family_compile _ _ Q type source k w _); intros ?shader ?o
      | glfwSetFramebufferSizeCallback ?window =>
          refine (@family_callback _ Q window k w _)
      | glfwCreateWindow _ _ _ _ => refine (@family_ask _ _ Q _ _ k w _); intros ?window
      | gladLoadGLLoader _ => refine (@family_ask _ _ Q _ _ k w _); intros ?loaded
      | glCreateProgram _ => refine (@family_ask _ _ Q _ _ k w _); intros ?shaderProgram
      | glGetProgramiv _ _ _ => refine (@family_ask _ _ Q _ _ k w _); intros ?status
      | glGetProgramInfoLog _ _ _ _ => refine (@family_ask _ _ Q _ _ k w _); intros ?infoLog
      | glGenVertexArrays _ _ => refine (@family_ask _ _ Q _ _ k w _); intros ?VAO
      | glGenBuffers _ _ => refine (@family_ask _ _ Q _ _ k w _); intros ?VBO
      | _ => refine (@family_call _ Q _ k w _)
      end
  end.

Ltac family_leaf :=
  cbv beta; cbn [emit trace should_close resize_callback_set app];
  left; eexists;
  (split; [|split; [|intros fuel; unfold ret; reflexivity]]);
  [reflexivity
  |cbn [emit trace should_close resize_callback_set app];
   destruct_outcomes; reflexivity].

Lemma main_reaches_loop (env : environment) :
  reaches_loop env (fun fuel => main env fuel initial_world).
Proof.
  unfold main, initial_world.
  do 5 family_step. family_step.
  { do 2 family_step. family_leaf. }
  do 3 family_step.
  { do 2 family_step. family_leaf. }
  do 3 family_step. family_step.
  { family_step. family_leaf. }
  do 2 family_step.
  { family_step. family_leaf. }
  do 2 family_step.
  { family_step. family_leaf. }
  do 2 family_step.
  { do 2 family_step. family_leaf. }
  do 6 family_step.
  { do 6 family_step. family_leaf. }
  do 11 family_step.
  cbv beta; cbn [emit trace should_close resize_callback_set app].
  right. eexists _, _, _, _, _.
  (split; [|split; [|split; [|intros fuel; reflexivity]]]);
    [reflexivity|reflexivity|].
  cbn [emit trace should_close resize_callback_set app].
  destruct_outcomes; reflexivity.
Qed.
Section RenderLoopBounds.

Variable env : environment.
Variables (window : GLFWwindow) (shaderProgram VAO : GLuint).

(** A loop that is still running goes on from where it is. *)
Lemma render_loop_extend (fuel more : nat) (w w1 : world) :
  render_loop env fuel window shaderProgram VAO w = (Ok false, w1) ->
  render_loop env (fuel + more) window shaderProgram VAO w =
  render_loop env more window shaderProgram VAO w1.
Proof.
  revert w; induction fuel as [|fuel IH]; intros w Hrun.
  - injection Hrun as ->. reflexivity.
  - destruct (should_close w) eqn:Hc.
    + rewrite render_loop_closed in Hrun by assumption. discriminate Hrun.
    + destruct (render_loop_step env window shaderProgram VAO w Hc)
        as (r1 & c1 & w2 & Hstep & _).
      rewrite Hstep in Hrun. cbn [Nat.add]. rewrite Hstep. now apply IH.
Qed.

(** What a loop adds to the log, and the flag it leaves. *)
Lemma render_loop_grows (fuel : nat) (w : world) :
  exists closed w' rest,
    render_loop env fuel window shaderProgram VAO w = (Ok closed, w') /\
    trace w' = trace w ++ rest /\
    (draws rest <= fuel)%nat /\
    (should_close w = false -> closed = true -> (1 <= draws rest)%nat) /\
    (closed = true -> should_close w' = true).
Proof.
  revert w; induction fuel as [|fuel IH]; intros w.
  - exists false, w, []. cbn. rewrite app_nil_r. repeat split; auto; discriminate.
  - destruct (should_close w) eqn:Hc.
    + exists true, (log (GlfwWindowShouldClose window true) w),
        [GlfwWindowShouldClose window true].
      rewrite render_loop_closed by assumption. cbn.
      repeat split; auto; try lia; try congruence.
    + destruct (render_loop_step env window shaderProgram VAO w Hc)
        as (r1 & c1 & w1 & Hstep & Ht1 & _).
      destruct (IH w1) as (closed & w' & rest & Hrun & Ht & Hd & _ & Hflag).
      eexists closed, w', _. rewrite Hstep.
      split; [exact Hrun|]. rewrite Ht, Ht1, <- app_assoc.
      split; [reflexivity|].
      rewrite draws_app, draws_iteration.
      split; [lia|]. split; [intros; lia|exact Hflag].
Qed.

End RenderLoopBounds.

Lemma render_and_shutdown_spec (env : environment) (fuel : nat) (window : GLFWwindow)
  (shaderProgram VAO VBO : GLuint) (w : world) :
  exists closed w',
    render_loop env fuel window shaderProgram VAO w = (Ok closed, w') /\
    render_and_shutdown env fuel window shaderProgram VAO VBO w =
    if closed
    then (Ok (Some 0), emit (shutdown_events VAO VBO shaderProgram) w')
    else (Ok None, w').
Proof.
  destruct (render_loop_grows env window shaderProgram VAO fuel w)
    as (closed & w' & rest & Hrun & _).
  exists closed, w'. split; [exact Hrun|].
  unfold render_and_shutdown, bind. rewrite Hrun.
  destruct closed; [|reflexivity].
  unfold glDeleteVertexArrays, glDeleteBuffers, glDeleteProgram, glfwTerminate,
    call, log, ret, emit, shutdown_events.
  cbn [trace should_close resize_callback_set]. rewrite <- !app_assoc. reflexivity.
Qed.

Lemma last_call_shutdown (t : history) (VAO VBO shaderProgram : GLuint) :
  last_call (t ++ shutdown_events VAO VBO shaderProgram) = Some GlfwTerminate.
Proof.
  unfold shutdown_events.
  change (t ++ [GlDeleteVertexArrays 1 VAO; GlDeleteBuffers 1 VBO;
                GlDeleteProgram shaderProgram; GlfwTerminate])
    with (t ++ [GlDeleteVertexArrays 1 VAO; GlDeleteBuffers 1 VBO;
                GlDeleteProgram shaderProgram] ++ [GlfwTerminate]).
  rewrite app_assoc. apply last_call_app.
Qed.



(** X5: while the render loop is still running, a larger bound only
    extends the log: the calls made so far stay as they are, and each
    further iteration allowed adds at most one draw call. *)
Theorem unfinished_run_is_prefix (env : environment) (fuel more : nat) :
  fst (run env fuel) = Ok None ->
  exists rest,
    trace (snd (run env (fuel + more))) = trace (snd (run env fuel)) ++ rest /\
    (draws rest <= more)%nat.
Proof.
  unfold run. intros Hcode.
  destruct (main_reaches_loop env)
    as [(w & _ & _ & Hall)|(window & program & VAO & VBO & w & _ & _ & _ & Hall)];
    rewrite !Hall in *; [discriminate Hcode|].
  destruct (render_and_shutdown_spec env fuel window program VAO VBO w)
    as (closed & w' & Hloop & Hrun).
  destruct (render_and_shutdown_spec env (fuel + more) window program VAO VBO w)
    as (closed' & w'' & Hloop' & Hrun').
  rewrite Hrun in *. destruct closed; [discriminate Hcode|].
  rewrite (@render_loop_extend _ _ _ _ _ more _ _ Hloop) in Hloop'.
  destruct (render_loop_grows env window program VAO more w')
    as (c & w3 & rest & Hrun3 & Ht3 & Hd & _).
  rewrite Hloop' in Hrun3. injection Hrun3 as <- <-.
  rewrite Hrun'. destruct closed'; cbn [snd emit trace].
  - exists (rest ++ shutdown_events VAO VBO program).
    rewrite Ht3, <- app_assoc. split; [reflexivity|].
    rewrite draws_app. cbn. lia.
  - exists rest. split; [exact Ht3|exact Hd].
Qed.

Lemma unfinished_run_is_prefix_witness :
  exists rest,
    trace (snd (run (Demo.env Demo.good) (1 + 1))) =
    trace (snd (run (Demo.env Demo.good) 1)) ++ rest /\
    (draws rest <= 1)%nat.
Proof.
  apply (@unfinished_run_is_prefix (Demo.env Demo.good) 1 1).
  vm_compute; reflexivity.
Defined.

(** X6: once the close flag is up, whether [processInput] raised it for
    the escape key or [glfwPollEvents] for a request to close the window,
    the next evaluation of the loop condition ends the loop: with one more
    iteration allowed [main] returns 0 after [glfwTerminate], without
    another draw call. *)
Theorem raised_flag_ends_run (env : environment) (fuel : nat) :
  should_close (snd (run env fuel)) = true ->
  fst (run env (S fuel)) = Ok (Some 0) /\
  draws (trace (snd (run env (S fuel)))) = draws (trace (snd (run env fuel))) /\
  last_call (trace (snd (run env (S fuel)))) = Some GlfwTerminate.
Proof.
  unfold run. intros Hflag.
  destruct (main_reaches_loop env)
    as [(w & Hc & _ & Hall)|(window & program & VAO & VBO & w & _ & _ & _ & Hall)];
    rewrite !Hall in *; [cbn [snd] in Hflag; congruence|].
  destruct (render_and_shutdown_spec env fuel window program VAO VBO w)
    as (closed & w' & Hloop & Hrun).
  destruct (render_and_shutdown_spec env (S fuel) window program VAO VBO w)
    as (closed' & w'' & Hloop' & Hrun').
  rewrite Hrun in *. rewrite Hrun'. clear Hrun Hrun'.
  destruct closed.
  - rewrite (render_loop_more_fuel _ _ _ _ _ Hloop (Nat.le_succ_diag_r fuel)) in Hloop'.
    injection Hloop' as <- <-. cbn [fst snd emit trace].
    split; [reflexivity|]. split; [reflexivity|apply last_call_shutdown].
  - cbn [snd] in Hflag.
    replace (S fuel) with (fuel + 1)%nat in Hloop' by lia.
    rewrite (@render_loop_extend _ _ _ _ _ 1%nat _ _ Hloop) in Hloop'.
    rewrite render_loop_closed in Hloop' by assumption.
    injection Hloop' as <- <-. cbn [fst snd emit trace log].
    split; [reflexivity|]. split; [|apply last_call_shutdown].
    rewrite !draws_app. cbn. lia.
Qed.

(** In the good run escape is down in the third iteration. *)
Lemma raised_flag_ends_run_witness :
  should_close (snd (run (Demo.env Demo.good) 3)) = true /\
  fst (run (Demo.env Demo.good) 3) = Ok None /\
  fst (run (Demo.env Demo.good) 4) = Ok (Some 0).
Proof.
  assert (H : should_close (snd (run (Demo.env Demo.good) 3)) = true)
    by (vm_compute; reflexivity).
  split; [exact H|]. split; [vm_compute; reflexivity|].
  exact (proj1 (@raised_flag_ends_run (Demo.env Demo.good) 3 H)).
Defined.

(** ** The exit code *)





(** ** What [compileShader] leaves behind *)

Lemma live_after_compile (l : list object) (type : GLenum) (source : string)
  (shader : GLuint) (o : compile_outcome) :
  ~ In (Shader, shader) l ->
  fold_left live_step (compile_events type source shader o) l =
  l ++ (if (compile_result shader o =? 0)%N then []
        else [(Shader, compile_result shader o)]).
Proof.
  intros Hfresh. rewrite live_from_lifetime.
  destruct o as [full|status];
    cbn [compile_events app filter is_lifetime_call compile_report compile_result
         fold_left N.eqb];
    unfold live_step; cbn [creates deletes];
    destruct (shader =? 0)%N; rewrite ?app_nil_r; try reflexivity.
  - now apply notin_remove.
  - rewrite remove_app, notin_remove by assumption.
    cbn [remove]. destruct (object_eq_dec (Shader, shader) (Shader, shader));
      [apply app_nil_r|congruence].
Qed.

(** X8: [compileShader] hands the shader it created to its caller or
    deletes it itself: when it returns 0 the shader objects that exist are
    those that existed before the call, and when it returns another name
    that is the name [glCreateShader] answered and the one shader object
    that the call has added.  It returns a name other than 0 exactly when
    [glCreateShader] answered one and the compile status was not 0. *)
Theorem compileShader_leaves_only_its_result (env : environment) (type : GLenum)
  (source : string) (w : world) :
  ~ In (Shader, created_shader env type w) (live (trace w)) ->
  exists shader w',
    compileShader env type source w = (Ok shader, w') /\
    live (trace w') =
      live (trace w) ++ (if (shader =? 0)%N then [] else [(Shader, shader)]) /\
    (shader <> 0%N <->
     created_shader env type w <> 0%N /\ compile_status env type source w <> 0) /\
    (shader <> 0%N -> shader = created_shader env type w).
Proof.
  intros Hfresh. unfold compile_status, created_shader in *.
  set (s := env_glCreateShader env (trace w) type) in *. cbv zeta.
  destruct (Z.eq_dec
              (env_glGetShaderiv env
                 (trace w ++ [GlCreateShader type s; GlShaderSource s 1 source;
                              GlCompileShader s]) s GL_COMPILE_STATUS) 0) as [Hs|Hs].
  - eexists 0%N, _. split; [now apply compileShader_failed|].
    split; [|split; [|congruence]].
    + cbn [emit trace]. rewrite live_app, live_after_compile by assumption.
      reflexivity.
    + split; [congruence|]. intros (_ & H). now destruct H.
  - eexists s, _. split; [now apply compileShader_compiled|].
    split; [|split; [|reflexivity]].
    + cbn [emit trace]. rewrite live_app, live_after_compile by assumption.
      reflexivity.
    + split; [intros H; split; assumption|now intros (H & _)].
Qed.

(** The fragment shader that does not compile leaves only the vertex
    shader behind. *)
Lemma compileShader_leaves_only_its_result_witness :
  exists shader w',
    compileShader (Demo.env (Demo.bad_shader GL_FRAGMENT_SHADER)) GL_FRAGMENT_SHADER
      "void main() { }" (emit [GlCreateShader GL_VERTEX_SHADER 1%N] initial_world) =
    (Ok shader, w') /\
    shader = 0%N /\ live (trace w') = [(Shader, 1%N)].
Proof.
  destruct (@compileShader_leaves_only_its_result
              (Demo.env (Demo.bad_shader GL_FRAGMENT_SHADER)) GL_FRAGMENT_SHADER
              "void main() { }" (emit [GlCreateShader GL_VERTEX_SHADER 1%N] initial_world))
    as (shader & w' & Hrun & Hlive & _).
  - vm_compute. intros [H|[]]. discriminate H.
  - exists shader, w'. split; [exact Hrun|].
    assert (Hs : shader = 0%N) by (vm_compute in Hrun; congruence).
    split; [exact Hs|]. rewrite Hlive, Hs. reflexivity.
Defined.

(** ** Resizes *)

Lemma split_at_marked {T} (p : T -> bool) (a b l2 pre post : list T) (x x' : T) :
  p x' = true ->
  filter p a = [] -> filter p b = [] ->
  (a ++ x :: b) ++ l2 = pre ++ x' :: post ->
  (pre = a /\ x' = x /\ post = b ++ l2) \/
  (exists pre1, pre = (a ++ x :: b) ++ pre1 /\ l2 = pre1 ++ x' :: post).
Proof.
  intros Hx Ha Hb Heq.
  apply app_eq_app in Heq as (l & [(H1 & H2)|(H1 & H2)]).
  - destruct l as [|y l].
    + right. exists []. rewrite app_nil_r in H1. now rewrite app_nil_r.
    + injection H2 as <- ->. left.
      destruct (@unique_split _ p pre l a b x' x Hx Ha Hb (eq_sym H1)) as (-> & -> & ->).
      auto.
  - right. now exists l.
Qed.

Lemma split_after_quiet {T} (p : T -> bool) (l1 l2 pre post : list T) (x : T) :
  filter p l1 = [] ->
  l1 ++ l2 = pre ++ x :: post ->
  p x = true ->
  exists pre1, pre = l1 ++ pre1 /\ l2 = pre1 ++ x :: post.
Proof.
  intros Hq Heq Hx.
  apply app_eq_app in Heq as (l & [(H1 & H2)|(H1 & H2)]).
  - destruct l as [|y l].
    + exists []. rewrite app_nil_r in H1. now rewrite app_nil_r.
    + injection H2 as <- ->. exfalso.
      rewrite (proj1 (filter_nil_iff p l1) Hq x) in Hx; [discriminate Hx|].
      rewrite H1. apply in_elt.
  - now exists l.
Qed.

Lemma split_before_quiet {T} (p : T -> bool) (l1 l2 pre post : list T) (x : T) :
  filter p l2 = [] ->
  l1 ++ l2 = pre ++ x :: post ->
  p x = true ->
  exists post1, l1 = pre ++ x :: post1 /\ post = post1 ++ l2.
Proof.
  intros Hq Heq Hx.
  assert (Hout : forall l, l2 = l ++ x :: post -> False).
  { intros l Hl.
    rewrite (proj1 (filter_nil_iff p l2) Hq x) in Hx; [discriminate Hx|].
    rewrite Hl. apply in_elt. }
  apply app_eq_app in Heq as (l & [(H1 & H2)|(H1 & H2)]).
  - destruct l as [|y l].
    + exfalso. now apply (Hout []).
    + injection H2 as <- ->. now exists l.
  - exfalso. now apply (Hout l).
Qed.

Section Resizes.

Variable env : environment.
Variables (window : GLFWwindow) (shaderProgram VAO : GLuint).

(** With the callback registered, a poll runs it for each resize that it
    delivers. *)
Lemma glfwPollEvents_registered (w : world) :
  resize_callback_set w = true ->
  glfwPollEvents env window w =
  (Ok tt,
   {| trace := trace w ++ GlfwPollEvents ::
                 map viewport_of (framebuffer_resizes (env_glfwPollEvents env (trace w)));
      should_close := should_close w || close_requested (env_glfwPollEvents env (trace w));
      resize_callback_set := true |}).
Proof.
  destruct w as [t c r]. cbn [resize_callback_set]. intros ->.
  unfold glfwPollEvents. cbn [trace should_close resize_callback_set log].
  rewrite deliver_resizes_spec. cbn [trace should_close resize_callback_set].
  now rewrite <- app_assoc.
Qed.

Lemma render_loop_step_registered (w : world) :
  should_close w = false ->
  resize_callback_set w = true ->
  exists key w1,
    (forall fuel, render_loop env (S fuel) window shaderProgram VAO w =
                  render_loop env fuel window shaderProgram VAO w1) /\
    trace w1 =
      trace w ++ before_poll window shaderProgram VAO key ++
      GlfwPollEvents ::
      map viewport_of
        (framebuffer_resizes (env_glfwPollEvents env (trace w ++ before_poll window shaderProgram VAO key))) ++
      [GlfwSwapBuffers window] /\
    resize_callback_set w1 = true.
Proof.
  intros Hc Hr. destruct w as [t c r]. cbn in Hc, Hr. subst c r.
  set (h := t ++ [GlfwWindowShouldClose window false;
                  GlClearColor 0.2%Q 0.3%Q 0.3%Q 1.0%Q;
                  GlClear GL_COLOR_BUFFER_BIT;
                  GlUseProgram shaderProgram;
                  GlBindVertexArray VAO;
                  GlDrawArrays GL_TRIANGLES 0 3]).
  set (key := env_glfwGetKey env h window GLFW_KEY_ESCAPE).
  pose (w0 := {| trace := t ++ before_poll window shaderProgram VAO key;
                 should_close := (key =? GLFW_PRESS) || false;
                 resize_callback_set := true |}).
  exists key. eexists. split; [|split].
  - intros fuel. cbn [render_loop].
    unfold bind, glfwWindowShouldClose, glClearColor, glClear, glUseProgram,
      glBindVertexArray, glDrawArrays, glfwSwapBuffers, call, log.
    cbn [trace should_close resize_callback_set].
    rewrite processInput_spec.
    cbn [trace should_close resize_callback_set].
    rewrite <- !app_assoc. cbn [app]. fold h. fold key.
    match goal with
    | |- context [glfwPollEvents env window ?x] =>
        replace x with w0
          by (unfold w0, before_poll, h; cbn [app]; rewrite <- ?app_assoc; reflexivity)
    end.
    rewrite (glfwPollEvents_registered w0 eq_refl).
    cbn [trace should_close resize_callback_set]. reflexivity.
  - cbn [trace]. unfold w0. cbn [trace].
    rewrite <- !app_assoc. cbn [app]. reflexivity.
  - reflexivity.
Qed.


Lemma render_loop_polls (fuel : nat) (w : world) :
  resize_callback_set w = true ->
  exists closed w' rest,
    render_loop env fuel window shaderProgram VAO w = (Ok closed, w') /\
    trace w' = trace w ++ rest /\
    forall pre post,
      rest = pre ++ GlfwPollEvents :: post ->
      exists post',
        post = map viewport_of
                 (framebuffer_resizes (env_glfwPollEvents env (trace w ++ pre))) ++
               GlfwSwapBuffers window :: post'.
Proof.
  revert w; induction fuel as [|fuel IH]; intros w Hr.
  - exists false, w, []. cbn. rewrite app_nil_r. repeat split.
    intros pre post H. now destruct pre.
  - destruct (should_close w) eqn:Hc.
    + exists true, (log (GlfwWindowShouldClose window true) w),
        [GlfwWindowShouldClose window true].
      rewrite render_loop_closed by assumption. cbn. repeat split.
      intros [|e [|e' pre]] post H; discriminate H.
    + destruct (render_loop_step_registered w Hc Hr) as (key & w1 & Hstep & Ht1 & Hr1).
      destruct (IH w1 Hr1) as (closed & w' & rest1 & Hrun & Ht & Hpolls).
      set (resizes := framebuffer_resizes
                        (env_glfwPollEvents env
                           (trace w ++ before_poll window shaderProgram VAO key))) in *.
      exists closed, w',
        ((before_poll window shaderProgram VAO key ++
          GlfwPollEvents :: map viewport_of resizes ++ [GlfwSwapBuffers window]) ++ rest1).
      rewrite Hstep. split; [exact Hrun|].
      split; [rewrite Ht, Ht1, <- !app_assoc; reflexivity|].
      intros pre post Hsplit.
      destruct (@split_at_marked _ is_poll
                  (before_poll window shaderProgram VAO key)
                  (map viewport_of resizes ++ [GlfwSwapBuffers window])
                  rest1 pre post GlfwPollEvents GlfwPollEvents)
        as [(-> & _ & ->)|(pre1 & -> & Hrest)]; try reflexivity; try assumption.
      * unfold before_poll. destruct (key =? GLFW_PRESS); reflexivity.
      * rewrite filter_app, filter_viewports by reflexivity. reflexivity.
      * exists rest1. fold resizes. rewrite <- app_assoc. reflexivity.
      * destruct (Hpolls pre1 post Hrest) as (post' & ->).
        exists post'. rewrite Ht1, <- !app_assoc. cbn [app].
        rewrite <- !app_assoc. reflexivity.
Qed.

End Resizes.

(** X9: every resize that [glfwPollEvents] delivers is answered at once by
    [framebuffer_size_callback] with [glViewport (0, 0, width, height)]:
    each poll of a run is followed in the log by one viewport call for
    each resize it delivered, in the order delivered and with the size
    delivered, and then by the swap of the buffers.  The callback is
    registered before the first poll. *)
Theorem resizes_answered_by_viewport (env : environment) (fuel : nat)
  (pre post : history) :
  trace (snd (run env fuel)) = pre ++ GlfwPollEvents :: post ->
  exists window post',
    post = map viewport_of (framebuffer_resizes (env_glfwPollEvents env pre)) ++
           GlfwSwapBuffers window :: post'.
Proof.
  unfold run. intros Hsplit.
  destruct (main_reaches_loop env)
    as [(w & _ & Hquiet & Hall)|(window & program & VAO & VBO & w & _ & Hr & Hquiet & Hall)];
    rewrite !Hall in *.
  - exfalso. cbn [snd] in Hsplit. rewrite Hsplit in Hquiet.
    pose proof (proj1 (filter_nil_iff is_frame_call _) Hquiet GlfwPollEvents
                  (in_elt _ _ _)) as Hf.
    discriminate Hf.
  - exists window.
    destruct (render_loop_polls env window program VAO fuel w Hr)
      as (closed & w' & rest & Hloop & Ht & Hpolls).
    destruct (render_and_shutdown_spec env fuel window program VAO VBO w)
      as (closed' & w'' & Hloop' & Hrun).
    rewrite Hloop in Hloop'. injection Hloop' as <- <-.
    rewrite Hrun in Hsplit. clear Hrun.
    assert (exists tail,
               filter is_poll tail = [] /\
               trace w ++ rest ++ tail = pre ++ GlfwPollEvents :: post) as (tail & Hq & Heq).
    { destruct closed; cbn [snd emit trace] in Hsplit; rewrite Ht in Hsplit.
      - exists (shutdown_events VAO VBO program). split; [reflexivity|].
        now rewrite app_assoc.
      - exists []. split; [reflexivity|]. now rewrite app_nil_r. }
    assert (Hw : filter is_poll (trace w) = []).
    { apply filter_nil_iff. intros e He.
      pose proof (proj1 (filter_nil_iff is_frame_call _) Hquiet e He) as Hf.
      destruct e; try reflexivity. discriminate Hf. }
    destruct (@split_after_quiet _ is_poll (trace w) (rest ++ tail) pre post
                GlfwPollEvents Hw Heq eq_refl) as (pre1 & -> & Heq1).
    destruct (@split_before_quiet _ is_poll rest tail pre1 post
                GlfwPollEvents Hq Heq1 eq_refl) as (post1 & Hrest & ->).
    destruct (Hpolls pre1 post1 Hrest) as (post' & ->).
    exists (post' ++ tail). rewrite <- app_assoc. reflexivity.
Qed.

(** The window is resized to 1024 by 768 and then to 640 by 480 before
    the first poll, the 47th call of the run. *)
Lemma resizes_answered_by_viewport_witness :
  exists window post',
    skipn 47 (trace (snd (run (Demo.env Demo.resized) 1))) =
    [GlViewport 0 0 1024 768; GlViewport 0 0 640 480] ++
    GlfwSwapBuffers window :: post'.
Proof.
  apply (@resizes_answered_by_viewport (Demo.env Demo.resized) 1
           (firstn 46 (trace (snd (run (Demo.env Demo.resized) 1))))
           (skipn 47 (trace (snd (run (Demo.env Demo.resized) 1))))).
  vm_compute. reflexivity.
Defined.

(** ** What the draw calls read *)

Lemma gl_step_other (s : gl_state) (e : event) :
  is_vertex_call e = false -> gl_step s e = s.
Proof. destruct s as [b v]. destruct e; cbn; intros H; try discriminate H; reflexivity. Qed.

Lemma gl_state_from_vertex_calls (t : history) (s : gl_state) :
  fold_left gl_step t s = fold_left gl_step (filter is_vertex_call t) s.
Proof.
  revert s; induction t as [|e t IH]; intros s; [reflexivity|]. cbn [fold_left filter].
  destruct (is_vertex_call e) eqn:He; cbn [fold_left]; [apply IH|].
  rewrite (gl_step_other s e He). apply IH.
Qed.

(** Binding another vertex array and the calls that touch neither buffers
    nor vertex arrays leave the triangle set up. *)
Lemma triangle_kept (VAO VBO : GLuint) (t : history) (s : gl_state) :
  (forall e, In e t -> is_vertex_call e = false \/ exists a, e = GlBindVertexArray a) ->
  triangle_set_up VAO VBO s ->
  triangle_set_up VAO VBO (fold_left gl_step t s).
Proof.
  revert s; induction t as [|e t IH]; intros s Ht Hs; [exact Hs|].
  cbn [fold_left]. apply IH; [intros e' He'; apply Ht; now right|].
  destruct (Ht e (or_introl eq_refl)) as [He|(a & ->)].
  - now rewrite gl_step_other.
  - destruct s as [b v]. exact Hs.
Qed.

Lemma triangle_after_setup (window : GLFWwindow) (loaded : Z)
  (vertexSource fragmentSource : rdbuf_result)
  (vertexShader : GLuint) (vertexStatus : GLint)
  (fragmentShader : GLuint) (fragmentStatus : GLint)
  (shaderProgram : GLuint) (status : GLint) (VAO VBO : GLuint) :
  VAO <> 0%N -> VBO <> 0%N ->
  triangle_set_up VAO VBO
    (gl_state_after
       (shaders_events window loaded vertexSource fragmentSource
          vertexShader vertexStatus fragmentShader fragmentStatus ++
        link_events shaderProgram vertexShader fragmentShader status ++
        vertex_events vertexShader fragmentShader VAO VBO)).
Proof.
  intros Hvao Hvbo. apply N.eqb_neq in Hvao, Hvbo.
  unfold gl_state_after. rewrite gl_state_from_vertex_calls, !filter_app.
  unfold_stages. cbn [app filter is_vertex_call fold_left].
  unfold triangle_set_up, gl_step.
  cbn [fst snd buffer_step vertex_array_step no_buffers no_vertex_arrays
       array_buffer_binding buffer_data vertex_array_binding attribute attribute_enabled
       N.eqb Pos.eqb andb negb orb].
  rewrite ?Hvao, ?Hvbo, ?N.eqb_refl.
  cbn [fst snd buffer_step vertex_array_step
       array_buffer_binding buffer_data vertex_array_binding attribute attribute_enabled
       N.eqb Pos.eqb andb negb orb].
  rewrite ?Hvao, ?Hvbo, ?N.eqb_refl.
  cbn [fst snd buffer_step vertex_array_step
       array_buffer_binding buffer_data vertex_array_binding attribute attribute_enabled
       N.eqb Pos.eqb andb negb orb].
  rewrite ?Hvao, ?Hvbo, ?N.eqb_refl.
  repeat split.
  intros index H. rewrite orb_false_r in H. now apply N.eqb_eq in H.
Qed.

Lemma loop_draw_split (window : GLFWwindow) (shaderProgram VAO : GLuint)
  (iters : list (Z * list (Z * Z))) (pre post : history)
  (mode : GLenum) (first : GLint) (count : GLsizei) :
  loop_events window shaderProgram VAO iters =
    pre ++ GlDrawArrays mode first count :: post ->
  mode = GL_TRIANGLES /\ first = 0 /\ count = 3 /\
  exists pre1,
    pre = pre1 ++ [GlBindVertexArray VAO] /\
    forall e, In e pre1 -> is_vertex_call e = false \/ exists a, e = GlBindVertexArray a.
Proof.
  revert pre; induction iters as [|[key resizes] iters IH]; intros pre Heq.
  - now destruct pre.
  - unfold loop_events in *. cbn [flat_map fst snd] in Heq.
    assert (Hiter : forall e,
               In e (iteration_events window shaderProgram VAO key resizes) ->
               is_vertex_call e = false \/ exists a, e = GlBindVertexArray a).
    { intros e He. apply In_iteration_events in He as [He|[->|[s ->]]].
      - left. destruct e; try discriminate He; reflexivity.
      - right. now exists VAO.
      - now left. }
    destruct (@split_at_marked _ is_draw
                [GlfwWindowShouldClose window false;
                 GlClearColor 0.2%Q 0.3%Q 0.3%Q 1.0%Q;
                 GlClear GL_COLOR_BUFFER_BIT;
                 GlUseProgram shaderProgram;
                 GlBindVertexArray VAO]
                (GlfwGetKey window GLFW_KEY_ESCAPE key ::
                 (if key =? GLFW_PRESS
                  then [GlfwSetWindowShouldClose window true] else []) ++
                 [GlfwPollEvents] ++ map viewport_of resizes ++ [GlfwSwapBuffers window])
                (flat_map
                   (fun i => iteration_events window shaderProgram VAO (fst i) (snd i))
                   iters)
                pre post (GlDrawArrays GL_TRIANGLES 0 3)
                (GlDrawArrays mode first count))
      as [(-> & Hcall & _)|(pre1 & -> & Hrest)]; try reflexivity.
    + cbn [filter is_draw]. rewrite !filter_app, filter_viewports by reflexivity.
      destruct (key =? GLFW_PRESS); reflexivity.
    + exact Heq.
    + injection Hcall as -> -> ->. repeat split.
      exists [GlfwWindowShouldClose window false;
              GlClearColor 0.2%Q 0.3%Q 0.3%Q 1.0%Q;
              GlClear GL_COLOR_BUFFER_BIT;
              GlUseProgram shaderProgram].
      split; [reflexivity|].
      intros e He. left. repeat (destruct He as [<-|He]; [reflexivity|]). destruct He.
    + destruct (IH pre1 Hrest) as (-> & -> & -> & pre2 & -> & Hpre2).
      repeat split.
      eexists (_ ++ pre2). split; [apply app_assoc|].
      intros e He. apply in_app_or in He as [He|He]; [|now apply Hpre2].
      now apply Hiter.
Qed.

(** X10: every draw call of a run finds the triangle set up: the vertex
    array generated by [glGenVertexArrays] is bound; its attribute 0, the
    [aPos] of the vertex shader, is enabled and reads 3 floats per vertex
    with a stride of 12 bytes from the buffer generated by [glGenBuffers],
    which holds the 9 floats of the triangle; the call draws the vertices
    0 to 2 and so reads bytes 0 to 35 of the 36 in the buffer.  The names
    that the two [glGen] calls answered are taken to be names of objects,
    that is, not 0. *)
Theorem draws_read_the_triangle (env : environment) (fuel : nat)
  (pre post : history) (mode : GLenum) (first : GLint) (count : GLsizei) :
  trace (snd (run env fuel)) = pre ++ GlDrawArrays mode first count :: post ->
  (forall n array, In (GlGenVertexArrays n array) pre -> array <> 0%N) ->
  (forall n buffer, In (GlGenBuffers n buffer) pre -> buffer <> 0%N) ->
  draw_reads_inside (gl_state_after pre) first count /\
  exists VAO VBO,
    In (GlGenVertexArrays 1 VAO) pre /\ In (GlGenBuffers 1 VBO) pre /\
    vertex_array_binding (snd (gl_state_after pre)) = VAO /\
    triangle_set_up VAO VBO (gl_state_after pre).
Proof.
  destruct (run_path env fuel) as (code & w0 & -> & Hpath). cbn [fst snd].
  intros Heq Harrays Hbuffers.
  assert (Hnone : filter is_draw (trace w0) = [] -> False).
  { intros Hf. rewrite Heq in Hf.
    pose proof (proj1 (filter_nil_iff is_draw _) Hf _ (in_elt _ _ _)) as Hd.
    discriminate Hd. }
  destruct Hpath.
  1-7: exfalso; apply Hnone; unfold_stages; destruct_outcomes; reflexivity.
  clear Hnone.
  set (A := shaders_events window loaded vertexSource fragmentSource vertexShader
              vertexStatus fragmentShader fragmentStatus) in *.
  set (B := link_events shaderProgram vertexShader fragmentShader status) in *.
  set (C := vertex_events vertexShader fragmentShader VAO VBO) in *.
  set (tail := if closed then _ else _) in *.
  destruct (@split_after_quiet _ is_draw A _ pre post _ eq_refl Heq eq_refl)
    as (pre1 & -> & Heq1).
  destruct (@split_after_quiet _ is_draw B _ pre1 post _ eq_refl Heq1 eq_refl)
    as (pre2 & -> & Heq2).
  destruct (@split_after_quiet _ is_draw C _ pre2 post _ eq_refl Heq2 eq_refl)
    as (pre3 & -> & Heq3).
  assert (Htail : filter is_draw tail = []) by (subst tail; destruct closed; reflexivity).
  destruct (@split_before_quiet _ is_draw _ tail pre3 post _ Htail Heq3 eq_refl)
    as (post1 & Hloop & ->).
  destruct (@loop_draw_split _ _ _ _ _ _ _ _ _ Hloop) as (-> & -> & -> & pre4 & -> & Hpre4).
  assert (Hvao : VAO <> 0%N).
  { apply (Harrays 1). subst C. unfold vertex_events.
    rewrite !in_app_iff. right; right; left. cbn. tauto. }
  assert (Hvbo : VBO <> 0%N).
  { apply (Hbuffers 1). subst C. unfold vertex_events.
    rewrite !in_app_iff. right; right; left. cbn. tauto. }
  pose proof (@triangle_after_setup window loaded vertexSource fragmentSource
                vertexShader vertexStatus fragmentShader fragmentStatus
                shaderProgram status VAO VBO Hvao Hvbo) as Hsetup.
  fold A B C in Hsetup.
  assert (Hstate : exists s,
             triangle_set_up VAO VBO s /\
             gl_state_after (A ++ B ++ C ++ pre4 ++ [GlBindVertexArray VAO]) =
             gl_step s (GlBindVertexArray VAO)).
  { exists (fold_left gl_step pre4 (gl_state_after (A ++ B ++ C))).
    split; [now apply triangle_kept|].
    unfold gl_state_after.
    replace (A ++ B ++ C ++ pre4 ++ [GlBindVertexArray VAO])
      with ((A ++ B ++ C) ++ pre4 ++ [GlBindVertexArray VAO])
      by (rewrite <- !app_assoc; reflexivity).
    rewrite !fold_left_app. reflexivity. }
  destruct Hstate as ([b v] & Hs & ->).
  destruct Hs as (Hdata & Hattr & Hon & Honly).
  cbn [gl_step fst snd buffer_step vertex_array_step vertex_array_binding attribute
       attribute_enabled] in *.
  split.
  - split; [exact Hvao|]. split; [exact Hon|].
    intros index Hindex. rewrite (Honly index Hindex).
    eexists. split; [exact Hattr|].
    exists vertices. cbn [pointer_buffer pointer_type pointer_stride pointer_offset
                          pointer_size].
    split; [exact Hdata|]. split; [reflexivity|].
    unfold sizeof_float. cbn. lia.
  - exists VAO, VBO.
    split; [subst C; unfold vertex_events; rewrite !in_app_iff; right; right; left;
            cbn; tauto|].
    split; [subst C; unfold vertex_events; rewrite !in_app_iff; right; right; left;
            cbn; tauto|].
    split; [reflexivity|]. repeat split; assumption.
Qed.

(** The first draw call of the good run, its 45th call. *)
Lemma draws_read_the_triangle_witness :
  draw_reads_inside
    (gl_state_after (firstn 44 (trace (snd (run (Demo.env Demo.good) 1))))) 0 3.
Proof.
  apply (@draws_read_the_triangle (Demo.env Demo.good) 1
           (firstn 44 (trace (snd (run (Demo.env Demo.good) 1))))
           (skipn 45 (trace (snd (run (Demo.env Demo.good) 1))))
           GL_TRIANGLES 0 3).
  - vm_compute. reflexivity.
  - vm_compute. intros n array H.
    repeat (destruct H as [H|H];
            [try discriminate H; injection H as <- <-; discriminate|]).
    destruct H.
  - vm_compute. intros n buffer H.
    repeat (destruct H as [H|H];
            [try discriminate H; injection H as <- <-; discriminate|]).
    destruct H.
Defined.
